(** * Conversation state of the chat frontend: GraphProvider

    A shallow embedding of the graph context provider of the frontend
    (the [GraphProvider] component) and of the helpers it imports from
    [frontend/app/contexts/utils.ts]:

    - [switchSelectedThread], which rebuilds the visible timeline of a
      stored thread with a [flatMap] over its raw messages;
    - [streamMessage], which submits the conversation to the chat
      endpoint and appends the answer;
    - [nodeToStep], [sendChat] and [addDocumentLinks].

    React state cells ([useState], [useQueryState]) are fields of an
    explicit state record; the setters, [toast] and [fetch] are recorded
    in an event log so that their order and number can be stated. *)

From Stdlib Require Import String Ascii List ZArith NArith Lia Bool Arith.
From Equations Require Import Equations.
Import ListNotations.
Open Scope string_scope.
Open Scope list_scope.
#[local] Set Warnings "-register-all".

(** ** JavaScript values

    Thread values arrive as JSON and are typed [Record<string, any>] in
    the source, so fields such as [router], [documents] and [content]
    are arbitrary values. Numbers are kept integral: the only numeric
    literals of this code are the step indices 0..4. An object is an
    association list in insertion order; lookup returns the first
    binding, and an absent key reads as [undefined]. *)
Module JS.

Inductive JVal : Type :=
| JUndefined
| JNull
| JBool (b : bool)
| JNum (z : Z)
| JStr (s : string)
| JArr (elems : list JVal)
| JObj (fields : list (string * JVal)).

Definition Obj := list (string * JVal).

(** [o.k] on a record. *)
Fixpoint get (k : string) (o : Obj) : JVal :=
  match o with
  | [] => JUndefined
  | (k', v) :: o' => if String.eqb k k' then v else get k o'
  end.

(** ToBoolean. *)
Definition truthy (v : JVal) : bool :=
  match v with
  | JUndefined | JNull => false
  | JBool b => b
  | JNum z => negb (Z.eqb z 0)
  | JStr s => negb (String.eqb s "")
  | JArr _ | JObj _ => true
  end.

(** [v === "s"] against a string literal. *)
Definition strict_eq_str (v : JVal) (s : string) : bool :=
  match v with
  | JStr s' => String.eqb s' s
  | _ => false
  end.

(** [v?.length]: [undefined] on a nullish receiver, the element count
    of an array, the length of a string, the own property of a record,
    and [undefined] on numbers and booleans. *)
Definition opt_length (v : JVal) : JVal :=
  match v with
  | JUndefined | JNull => JUndefined
  | JArr l => JNum (Z.of_nat (List.length l))
  | JStr s => JNum (Z.of_nat (String.length s))
  | JObj o => get "length" o
  | JBool _ | JNum _ => JUndefined
  end.

(** [v.k] on an arbitrary value: a [TypeError] ([None]) on a nullish
    receiver; primitives and arrays have no such own property. *)
Definition prop (k : string) (v : JVal) : option JVal :=
  match v with
  | JUndefined | JNull => None
  | JObj o => Some (get k o)
  | _ => Some JUndefined
  end.

(** [a || b]. *)
Definition or_else (a b : JVal) : JVal := if truthy a then a else b.

End JS.
Import JS.

(** ** Messages

    [uuidv4()] is an external random source. A generated identifier is
    represented by the rank of its draw in the session: two draws give
    two different identifiers. *)
Inductive Uuid : Type := uuid_draw (n : nat).

Record ToolCall : Type := mkToolCall {
  tc_name : string;
  tc_args : JVal
}.

(** The argument of a message constructor as the source writes it: the
    record spread into the literal ([...msg], empty when there is no
    spread), then the fields written out. [id] is [None] where the
    literal has no [id:] entry, [tool_calls] is empty where it has no
    [tool_calls:] entry. *)
Record MessageFields : Type := mkFields {
  inherited : Obj;
  content : JVal;
  id : option Uuid;
  tool_calls : list ToolCall
}.

Inductive BaseMessage : Type :=
| HumanMessage (f : MessageFields)
| AIMessage (f : MessageFields).

Definition fields_of (m : BaseMessage) : MessageFields :=
  match m with HumanMessage f | AIMessage f => f end.

(** The identifier a message ends up with. *)
Inductive MessageId : Type :=
| IdMissing
| IdAssigned (v : JVal)
| IdGenerated (u : Uuid).

Definition message_id (m : BaseMessage) : MessageId :=
  match id (fields_of m) with
  | Some u => IdGenerated u
  | None =>
      match get "id" (inherited (fields_of m)) with
      | JUndefined => IdMissing
      | v => IdAssigned v
      end
  end.

(** Thread values after the casts of [switchSelectedThread]:
    [thread.values as Record<string, any>] and
    [threadValues.messages as Record<string, any>[]]. *)
Record ThreadValues : Type := mkThreadValues {
  tv_messages : list Obj;
  tv_router : JVal;
  tv_documents : JVal
}.

Record Thread : Type := mkThread {
  thread_id : string;
  values : option ThreadValues
}.

(** ** utils.ts *)

Definition nodeToStep (node : string) : Z :=
  if String.eqb node "analyze_and_route_query" then 0
  else if String.eqb node "create_research_plan" then 1
  else if String.eqb node "conduct_research" then 2
  else if String.eqb node "respond" then 3
  else 0.

(** ** The identifier generator *)

Definition Gen (A : Type) : Type := nat -> A * nat.

Definition gret {A} (a : A) : Gen A := fun g => (a, g).

Definition gbind {A B} (c : Gen A) (k : A -> Gen B) : Gen B :=
  fun g => let (a, g') := c g in k a g'.

Definition uuidv4 : Gen Uuid := fun g => (uuid_draw g, S g).

Declare Scope gen_scope.
Delimit Scope gen_scope with gen.
Notation "x <- c ;; k" := (gbind c (fun x => k))
  (at level 61, c at next level, right associativity) : gen_scope.

(** ** switchSelectedThread: the flatMap callback *)

(** The step written into the progress marker ([step: 4], "Set to
    done"). *)
Definition done_step : Z := 4.

Definition progressAIMessage (u : Uuid) : BaseMessage :=
  AIMessage {| inherited := [];
               id := Some u;
               content := JStr "";
               tool_calls :=
                 [mkToolCall "progress" (JObj [("step", JNum done_step)])] |}.

Definition routerMessage (u : Uuid) (router : JVal) : BaseMessage :=
  AIMessage {| inherited := [];
               content := JStr "";
               id := Some u;
               tool_calls := [mkToolCall "router_logic" router] |}.

Definition selectedDocumentsAIMessage (u : Uuid) (documents : JVal)
  : BaseMessage :=
  AIMessage {| inherited := [];
               content := JStr "";
               id := Some u;
               tool_calls :=
                 [mkToolCall "selected_documents"
                    (JObj [("documents", documents)])] |}.

Definition answerHeaderToolMsg : BaseMessage :=
  AIMessage {| inherited := [];
               content := JStr "";
               id := None;
               tool_calls := [mkToolCall "answer_header" (JObj [])] |}.

(** [{ ...msg, content: msg.content }]. *)
Definition spread_msg (msg : Obj) : MessageFields :=
  {| inherited := msg;
     content := get "content" msg;
     id := None;
     tool_calls := [] |}.

(** [index === array.length - 1 || array[index + 1].type === "human"].
    [flatMap] calls the callback with [index] below [array.length], so
    the right operand, evaluated when [index] is not the last position,
    reads an entry of the array; the default of [nth] is never used
    there. *)
Definition isLastAiMessage (index : nat) (array : list Obj) : bool :=
  if Z.eqb (Z.of_nat index) (Z.of_nat (List.length array) - 1) then true
  else strict_eq_str (get "type" (nth (index + 1) array [])) "human".

Definition optional {A} (x : option A) : list A :=
  match x with Some a => [a] | None => [] end.

Definition flatMap_callback (threadValues : ThreadValues)
    (msg : Obj) (index : nat) (array : list Obj) : Gen (list BaseMessage) :=
  (if strict_eq_str (get "type" msg) "human" then
     u <- uuidv4 ;;
     gret [HumanMessage (spread_msg msg); progressAIMessage u]
   else if strict_eq_str (get "type" msg) "ai" then
     if isLastAiMessage index array then
       routerMsg <-
         (if truthy (tv_router threadValues)
          then u <- uuidv4 ;;
               gret (Some (routerMessage u (tv_router threadValues)))
          else gret None) ;;
       documentsMsg <-
         (if truthy (opt_length (tv_documents threadValues))
          then u <- uuidv4 ;;
               gret (Some (selectedDocumentsAIMessage u
                             (tv_documents threadValues)))
          else gret None) ;;
       gret (optional routerMsg ++ optional documentsMsg
             ++ [answerHeaderToolMsg; AIMessage (spread_msg msg)])
     else gret [AIMessage (spread_msg msg)]
   else gret [])%gen.

(** [array.flatMap(callback)], walking [rest] from position [index]. *)
Fixpoint flatMap_from (cb : Obj -> nat -> list Obj -> Gen (list BaseMessage))
    (array : list Obj) (index : nat) (rest : list Obj)
  : Gen (list BaseMessage) :=
  match rest with
  | [] => gret []
  | msg :: rest' =>
      (out <- cb msg index array ;;
       outs <- flatMap_from cb array (S index) rest' ;;
       gret (out ++ outs))%gen
  end.

Definition flatMap (cb : Obj -> nat -> list Obj -> Gen (list BaseMessage))
    (array : list Obj) : Gen (list BaseMessage) :=
  flatMap_from cb array 0 array.

(** The timeline built for thread values ([actualMessages]). *)
Definition reconstruct (threadValues : ThreadValues) : Gen (list BaseMessage) :=
  flatMap (flatMap_callback threadValues) (tv_messages threadValues).

(** ** Markers

    A marker built by the provider is an assistant entry with empty
    content whose literal carries one tool call; the name of the call is
    its kind and the arguments are its payload. [marker] recognises
    these literals only: an entry passed through from the thread is
    never a marker in this sense, whatever tool calls it was stored
    with. What an entry looks like, stored tool calls included, is
    [shape] below. *)
Inductive MarkerKind : Type :=
| Progress
| Router
| SelectedDocuments
| AnswerHeader.

Definition kind_of_name (name : string) : option MarkerKind :=
  if String.eqb name "progress" then Some Progress
  else if String.eqb name "router_logic" then Some Router
  else if String.eqb name "selected_documents" then Some SelectedDocuments
  else if String.eqb name "answer_header" then Some AnswerHeader
  else None.

Definition marker (m : BaseMessage) : option (MarkerKind * JVal) :=
  match m with
  | HumanMessage _ => None
  | AIMessage f =>
      match tool_calls f with
      | [tc] =>
          if strict_eq_str (content f) "" then
            match kind_of_name (tc_name tc) with
            | Some k => Some (k, tc_args tc)
            | None => None
            end
          else None
      | _ => None
      end
  end.

Definition is_marker (m : BaseMessage) : bool :=
  match marker m with Some _ => true | None => false end.

Definition kind_eqb (a b : MarkerKind) : bool :=
  match a, b with
  | Progress, Progress | Router, Router
  | SelectedDocuments, SelectedDocuments | AnswerHeader, AnswerHeader => true
  | _, _ => false
  end.

Definition is_marker_of (k : MarkerKind) (m : BaseMessage) : bool :=
  match marker m with Some (k', _) => kind_eqb k k' | None => false end.

Definition is_human (m : BaseMessage) : bool :=
  match m with HumanMessage _ => true | AIMessage _ => false end.

Definition count_markers (k : MarkerKind) (l : list BaseMessage) : nat :=
  List.length (filter (is_marker_of k) l).

(** *** The shape of a message

    [new AIMessage({ ...msg, content: msg.content })] hands every field
    of the stored entry to the constructor, its [tool_calls] included.
    The message so built carries the tool calls written in the literal
    or, when the literal writes none, the ones spread in from the
    stored entry. *)

(** A stored tool call [{ name, args, ... }]. *)
Definition tool_call_of (v : JVal) : ToolCall :=
  match v with
  | JObj o =>
      {| tc_name := match get "name" o with JStr n => n | _ => "" end;
         tc_args := get "args" o |}
  | _ => {| tc_name := ""; tc_args := JUndefined |}
  end.

Definition effective_tool_calls (f : MessageFields) : list ToolCall :=
  match tool_calls f with
  | [] =>
      match get "tool_calls" (inherited f) with
      | JArr l => map tool_call_of l
      | _ => []
      end
  | calls => calls
  end.

(** The marker a message has the shape of: an assistant message with
    empty content and one tool call named as a marker, whether the
    provider built it or the thread stored it that way. *)
Definition shape (m : BaseMessage) : option (MarkerKind * JVal) :=
  match m with
  | HumanMessage _ => None
  | AIMessage f =>
      match effective_tool_calls f with
      | [tc] =>
          if strict_eq_str (content f) "" then
            match kind_of_name (tc_name tc) with
            | Some k => Some (k, tc_args tc)
            | None => None
            end
          else None
      | _ => None
      end
  end.

Definition is_shaped (m : BaseMessage) : bool :=
  match shape m with Some _ => true | None => false end.

Definition is_shaped_of (k : MarkerKind) (m : BaseMessage) : bool :=
  match shape m with Some (k', _) => kind_eqb k k' | None => false end.

Definition count_shaped (k : MarkerKind) (l : list BaseMessage) : nat :=
  List.length (filter (is_shaped_of k) l).

(** The marker-shaped entries standing between a position and the next
    entry that is not marker-shaped. *)
Fixpoint leading_shaped (l : list BaseMessage) : list BaseMessage :=
  match l with
  | [] => []
  | m :: l' => if is_shaped m then m :: leading_shaped l' else []
  end.

(** ** Provider state and effects *)

Inductive ModelOptions : Type :=
| gemini_2_0_flash
| gemini_2_5_pro.

(** What the provider does to the outside: state setters, [toast] and
    [fetch], in the order they happen. *)
Inductive Event : Type :=
| EvSetThreadId (t : string)
| EvSetRunId (r : string)
| EvSetIsStreaming (b : bool)
| EvSetMessages (ms : list BaseMessage)
| EvUpdaterThrew
| EvToast (title description : string)
| EvFetch (url : string) (body_messages : list Obj) (body_model : ModelOptions).

Record GraphState : Type := mkGraphState {
  runId : string;
  isStreaming : bool;
  messages : list BaseMessage;
  selectedModel : ModelOptions;
  threadId : option string;
  uuid_state : nat;
  log : list Event
}.

(** The state on mount: the [useState] initial values. *)
Definition initial_state : GraphState :=
  {| runId := "";
     isStreaming := false;
     messages := [];
     selectedModel := gemini_2_5_pro;
     threadId := None;
     uuid_state := 0;
     log := [] |}.

Inductive Error : Type :=
| NetworkFailure
| ChatApiError
| JsonSyntaxError
| TypeError.

(** How a piece of the provider's code ends: with a value, with an
    exception its caller can catch, or with the provider unmounted: the
    render that applies the queued state updates threw, there is no
    error boundary, and nothing the code does afterwards takes effect. *)
Inductive Completion (A : Type) : Type :=
| Normal (a : A)
| Throw (e : Error)
| Unmounted.
Arguments Normal {A} a.
Arguments Throw {A} e.
Arguments Unmounted {A}.

Definition Act (A : Type) : Type := GraphState -> Completion A * GraphState.

Definition ret {A} (a : A) : Act A := fun s => (Normal a, s).

Definition throw {A} (e : Error) : Act A := fun s => (Throw e, s).

Definition bind {A B} (c : Act A) (k : A -> Act B) : Act B :=
  fun s =>
    match c s with
    | (Normal a, s') => k a s'
    | (Throw e, s') => (Throw e, s')
    | (Unmounted, s') => (Unmounted, s')
    end.

Declare Scope act_scope.
Delimit Scope act_scope with act.
Notation "x <- c ;; k" := (bind c (fun x => k))
  (at level 61, c at next level, right associativity) : act_scope.
Notation "c ;; k" := (bind c (fun _ => k))
  (at level 61, right associativity) : act_scope.

(** [try { body } catch (e) { handler } finally { fin }]. Once the
    provider is unmounted neither block has an effect any more. *)
Definition try_catch_finally {A} (body : Act A) (handler : Error -> Act A)
    (fin : Act unit) : Act A :=
  fun s =>
    match body s with
    | (Unmounted, s1) => (Unmounted, s1)
    | (r1, s1) =>
        let (r2, s2) :=
          match r1 with
          | Throw e => handler e s1
          | _ => (r1, s1)
          end in
        match r2 with
        | Unmounted => (Unmounted, s2)
        | _ =>
            match fin s2 with
            | (Normal _, s3) => (r2, s3)
            | (Throw e, s3) => (Throw e, s3)
            | (Unmounted, s3) => (Unmounted, s3)
            end
        end
    end.

Definition emit (e : Event) (s : GraphState) : GraphState :=
  {| runId := runId s; isStreaming := isStreaming s; messages := messages s;
     selectedModel := selectedModel s; threadId := threadId s;
     uuid_state := uuid_state s; log := log s ++ [e] |}.

Definition setThreadId (t : string) : Act unit :=
  fun s =>
    (Normal tt,
     emit (EvSetThreadId t)
       {| runId := runId s; isStreaming := isStreaming s;
          messages := messages s; selectedModel := selectedModel s;
          threadId := Some t; uuid_state := uuid_state s; log := log s |}).

Definition setRunId (r : string) : Act unit :=
  fun s =>
    (Normal tt,
     emit (EvSetRunId r)
       {| runId := r; isStreaming := isStreaming s;
          messages := messages s; selectedModel := selectedModel s;
          threadId := threadId s; uuid_state := uuid_state s; log := log s |}).

Definition setIsStreaming (b : bool) : Act unit :=
  fun s =>
    (Normal tt,
     emit (EvSetIsStreaming b)
       {| runId := runId s; isStreaming := b;
          messages := messages s; selectedModel := selectedModel s;
          threadId := threadId s; uuid_state := uuid_state s; log := log s |}).

Definition setMessages (ms : list BaseMessage) : Act unit :=
  fun s =>
    (Normal tt,
     emit (EvSetMessages ms)
       {| runId := runId s; isStreaming := isStreaming s;
          messages := ms; selectedModel := selectedModel s;
          threadId := threadId s; uuid_state := uuid_state s; log := log s |}).

(** Code that draws identifiers runs against the generator of the
    session. *)
Definition with_uuid {A} (c : Gen A) : Act A :=
  fun s =>
    let (a, g) := c (uuid_state s) in
    (Normal a,
     {| runId := runId s; isStreaming := isStreaming s;
        messages := messages s; selectedModel := selectedModel s;
        threadId := threadId s; uuid_state := g; log := log s |}).

Definition reads {A} (f : GraphState -> A) : Act A :=
  fun s => (Normal (f s), s).

Definition record_event (e : Event) : Act unit :=
  fun s => (Normal tt, emit e s).

(** [setMessages((prev) => ...)]. The updater is run by React on the
    current value of the cell. An exception raised inside it does not
    reach the caller of the setter: it is raised again by the render
    that applies the queued updates, which unmounts the provider; the
    cells keep the values shown last. *)
Definition setMessages_with
    (updater : list BaseMessage -> Gen (option (list BaseMessage)))
  : Act unit :=
  (prevMessages <- reads messages ;;
   next <- with_uuid (updater prevMessages) ;;
   match next with
   | Some ms => setMessages ms
   | None => fun s => (Unmounted, emit EvUpdaterThrew s)
   end)%act.

Definition toast (title description : string) : Act unit :=
  record_event (EvToast title description).

(** ** sendChat

    The answer of the network to the one request: [fetch] rejects, or
    yields a response with its [ok] flag and, when the body parses as
    JSON, the parsed value. *)
Inductive FetchOutcome : Type :=
| FetchRejects
| FetchResponds (ok : bool) (json : option JVal).

Definition chat_url : string := "http://localhost:8080/chat".

Definition sendChat (net : FetchOutcome) (msgs : list Obj)
    (model : ModelOptions) : Act JVal :=
  (record_event (EvFetch chat_url msgs model) ;;
   match net with
  | FetchRejects => throw NetworkFailure
  | FetchResponds ok json =>
      if negb ok then throw ChatApiError
      else match json with
           | Some v => ret v
           | None => throw JsonSyntaxError
           end
  end)%act.

(** ** streamMessage *)

Record GraphInput : Type := mkGraphInput {
  input_messages : option (list Obj)
}.

(** [params.messages ?? []]. *)
Definition request_messages (params : GraphInput) : list Obj :=
  match input_messages params with
  | Some ms => ms
  | None => []
  end.

(** [!userId] for the [string | undefined] of [useUser]. *)
Definition no_user (userId : option string) : bool :=
  match userId with
  | None => true
  | Some u => String.eqb u ""
  end.

(** [new AIMessage({ content: response.answer || response, id: uuidv4() })]
    appended to the previous messages. Reading [answer] of a nullish
    response throws. *)
Definition append_answer (response : JVal) (prevMessages : list BaseMessage)
  : Gen (option (list BaseMessage)) :=
  match prop "answer" response with
  | None => gret None
  | Some answer =>
      (u <- uuidv4 ;;
       gret (Some (prevMessages ++
                   [AIMessage {| inherited := [];
                                 content := or_else answer response;
                                 id := Some u;
                                 tool_calls := [] |}])))%gen
  end.

Definition streamMessage (userId : option string) (net : FetchOutcome)
    (currentThreadId : string) (params : GraphInput) : Act unit :=
  if no_user userId then
    toast "Error" "User ID not found"
  else
    (model <- reads selectedModel ;;
     setRunId "" ;;
     setIsStreaming true ;;
     try_catch_finally
       (response <- sendChat net (request_messages params) model ;;
        setMessages_with (append_answer response))
       (fun _ => toast "Error" "Failed to get response from backend.")
       (setIsStreaming false))%act.

(** ** switchSelectedThread *)

Definition switchSelectedThread (thread : Thread) : Act unit :=
  (setThreadId (thread_id thread) ;;
   match values thread with
   | None => setMessages []
   | Some threadValues =>
       actualMessages <- with_uuid (reconstruct threadValues) ;;
       setMessages actualMessages
   end)%act.

(** ** Vocabulary of the properties *)

Definition is_type (t : string) (msg : Obj) : bool :=
  strict_eq_str (get "type" msg) t.

Definition recognized (msg : Obj) : bool :=
  is_type "human" msg || is_type "ai" msg.

(** A raw entry with a type and a text. *)
Definition raw (type text : string) : Obj :=
  [("type", JStr type); ("content", JStr text)].

(** The entries of a timeline as the message model names them: a human
    turn, an assistant turn, or a marker with its kind and payload. *)
Inductive Entry : Type :=
| Human (text : JVal)
| Assistant (text : JVal)
| Marker (kind : MarkerKind) (payload : JVal).

Definition entry_of (m : BaseMessage) : Entry :=
  match marker m with
  | Some (k, p) => Marker k p
  | None =>
      match m with
      | HumanMessage f => Human (content f)
      | AIMessage f => Assistant (content f)
      end
  end.

(** An [ai] entry the callback decorates with markers. *)
Definition code_terminal (array : list Obj) (index : nat) : bool :=
  is_type "ai" (nth index array []) && isLastAiMessage index array.

Definition terminal_count (array : list Obj) : nat :=
  List.length (filter (code_terminal array) (seq 0 (List.length array))).

(** Following the words of the specification: the number of maximal
    contiguous runs of [ai] entries of a raw list. A run is counted at
    its last entry. *)
Fixpoint assistant_runs (raw : list Obj) : nat :=
  match raw with
  | [] => 0
  | msg :: rest =>
      if is_type "ai" msg then
        match rest with
        | [] => 1
        | next :: _ =>
            if is_type "ai" next then assistant_runs rest
            else S (assistant_runs rest)
        end
      else assistant_runs rest
  end.

(** Following the words of the specification: no assistant entry comes
    before the next human entry or the end of the list. *)
Fixpoint no_assistant_before_human (rest : list Obj) : bool :=
  match rest with
  | [] => true
  | m :: rest' =>
      if is_type "human" m then true
      else if is_type "ai" m then false
      else no_assistant_before_human rest'
  end.

(** Following the words of the specification: the entry at [index] is
    the last assistant entry before the next human entry or the end. *)
Definition spec_terminal (array : list Obj) (index : nat) : bool :=
  is_type "ai" (nth index array [])
  && no_assistant_before_human (skipn (S index) array).

(** The [documents] field of a stored snapshot is absent, null or a
    list. *)
Definition documents_typed (d : JVal) : Prop :=
  match d with
  | JUndefined | JNull | JArr _ => True
  | _ => False
  end.

Definition nonempty_list (d : JVal) : bool :=
  match d with
  | JArr (_ :: _) => true
  | _ => false
  end.

(** A message without the identifier its literal generated. *)
Definition erase_id (m : BaseMessage) : BaseMessage :=
  let strip f :=
    {| inherited := inherited f; content := content f; id := None;
       tool_calls := tool_calls f |} in
  match m with
  | HumanMessage f => HumanMessage (strip f)
  | AIMessage f => AIMessage (strip f)
  end.

Definition generated_ids (l : list BaseMessage) : list nat :=
  flat_map (fun m => match id (fields_of m) with
                     | Some (uuid_draw n) => [n]
                     | None => []
                     end) l.

(** Every generated identifier of the timeline was drawn before [g],
    and no two entries share one. *)
Definition ids_drawn_before (g : nat) (l : list BaseMessage) : Prop :=
  Forall (fun n => n < g) (generated_ids l) /\ NoDup (generated_ids l).

(** User-visible notifications. *)
Inductive Notification : Type :=
| IdentityMissing
| BackendUnavailable.

Definition notification_of (e : Event) : option Notification :=
  match e with
  | EvToast _ description =>
      if String.eqb description "User ID not found"
      then Some IdentityMissing
      else if String.eqb description "Failed to get response from backend."
      then Some BackendUnavailable
      else None
  | _ => None
  end.

Definition notifications (evs : list Event) : list Notification :=
  flat_map (fun e => optional (notification_of e)) evs.

Definition is_fetch (e : Event) : bool :=
  match e with EvFetch _ _ _ => true | _ => false end.

(** The values [isStreaming] takes while a list of events unfolds,
    starting from [b]. *)
Fixpoint streaming_values (b : bool) (evs : list Event) : list bool :=
  match evs with
  | [] => [b]
  | EvSetIsStreaming b' :: evs' => b :: streaming_values b' evs'
  | _ :: evs' => b :: streaming_values b evs'
  end.

(** The chat call of [streamMessage] does not deliver a value: [fetch]
    rejects, the response is not [ok], or its body is not JSON. *)
Definition chat_call_fails (net : FetchOutcome) : Prop :=
  match net with
  | FetchRejects => True
  | FetchResponds ok json => ok = false \/ json = None
  end.

(** The identifiers drawn for a terminal entry: one for the router
    marker when there is one, then one for the documents marker. *)
Definition terminal_output (tv : ThreadValues) (msg : Obj) (g : nat)
  : list BaseMessage * nat :=
  let g1 := if truthy (tv_router tv) then S g else g in
  ((if truthy (tv_router tv)
    then [routerMessage (uuid_draw g) (tv_router tv)] else [])
   ++ (if truthy (opt_length (tv_documents tv))
       then [selectedDocumentsAIMessage (uuid_draw g1) (tv_documents tv)]
       else [])
   ++ [answerHeaderToolMsg; AIMessage (spread_msg msg)],
   if truthy (opt_length (tv_documents tv)) then S g1 else g1).

(** The entries of a timeline by their shape. *)
Definition shown (m : BaseMessage) : Entry :=
  match shape m with
  | Some (k, p) => Marker k p
  | None =>
      match m with
      | HumanMessage f => Human (content f)
      | AIMessage f => Assistant (content f)
      end
  end.

(** A stored [ai] entry that has the shape of a marker of kind [k] once
    passed through, and their number in a raw list. *)
Definition raw_shaped_of (k : MarkerKind) (msg : Obj) : bool :=
  is_type "ai" msg && is_shaped_of k (AIMessage (spread_msg msg)).

Definition stored_shaped (k : MarkerKind) (raws : list Obj) : nat :=
  List.length (filter (raw_shaped_of k) raws).

(** An entry of a timeline reconstructed from [raws] is a message the
    callback builds from a literal without spread, whose shape is the
    marker it was built as, or an [ai] entry of [raws] passed through. *)
Definition built_or_stored (raws : list Obj) (m : BaseMessage) : Prop :=
  (shape m = marker m /\ inherited (fields_of m) = [])
  \/ (shape m = None /\ marker m = None /\ is_human m = true)
  \/ (exists msg,
         In msg raws /\ is_type "ai" msg = true
         /\ m = AIMessage (spread_msg msg)).

(** A human entry is followed by the progress marker built for it, the
    only progress marker the callback builds before the next entry that
    is not marker-shaped. *)
Definition followed_by_built_progress (post : list BaseMessage) : Prop :=
  (exists u post', post = progressAIMessage u :: post')
  /\ count_markers Progress (leading_shaped post) = 1.

Fixpoint humans_followed (l : list BaseMessage) : Prop :=
  match l with
  | [] => True
  | m :: post =>
      (is_human m = true -> followed_by_built_progress post)
      /\ humans_followed post
  end.

(** The [ai] entries of a raw list that are directly followed by an
    entry whose type is neither human nor ai. *)
Fixpoint ai_before_other (raws : list Obj) : nat :=
  match raws with
  | [] => 0
  | msg :: rest =>
      match rest with
      | [] => 0
      | next :: _ =>
          (if is_type "ai" msg && negb (recognized next) then 1 else 0)
          + ai_before_other rest
      end
  end.

(** A thread whose stored answer has the shape of a progress marker,
    and one whose stored answer has the shape of an answer header. *)
Definition stored_progress_snapshot : ThreadValues :=
  {| tv_messages :=
       [[("type", JStr "human"); ("content", JStr "Q")];
        [("type", JStr "ai"); ("content", JStr "");
         ("tool_calls",
          JArr [JObj [("name", JStr "progress");
                      ("args", JObj [("step", JNum 1)])]])]];
     tv_router := JUndefined;
     tv_documents := JUndefined |}.

Definition stored_header_snapshot : ThreadValues :=
  {| tv_messages :=
       [[("type", JStr "ai"); ("content", JStr "");
         ("tool_calls",
          JArr [JObj [("name", JStr "answer_header");
                      ("args", JObj [])]])]];
     tv_router := JUndefined;
     tv_documents := JUndefined |}.

(** [terminal_count], computed along the walk of [flatMap_from]. *)
Fixpoint terminal_count_from (array : list Obj) (index : nat)
    (rest : list Obj) : nat :=
  match rest with
  | [] => 0
  | msg :: rest' =>
      (if is_type "ai" msg && isLastAiMessage index array then 1 else 0)
      + terminal_count_from array (S index) rest'
  end.

(** A raw list in which an entry of another type follows the answer. *)
Definition trailing_system_snapshot : ThreadValues :=
  {| tv_messages := [[("type", JStr "ai"); ("content", JStr "A")];
                     [("type", JStr "system"); ("content", JStr "S")]];
     tv_router := JUndefined;
     tv_documents := JUndefined |}.

(** A stored thread holding one answer and nothing else. *)
Definition single_answer_snapshot : ThreadValues :=
  {| tv_messages := [[("type", JStr "ai"); ("content", JStr "A")]];
     tv_router := JUndefined;
     tv_documents := JUndefined |}.

(** A non-marker entry of a timeline is a raw entry of [raws] passed
    through, and that raw entry is a human or an ai entry. *)
Definition passed_through (raws : list Obj) (m : BaseMessage) : Prop :=
  is_marker m = false ->
  recognized (inherited (fields_of m)) = true
  /\ In (inherited (fields_of m)) raws.

(** Which identifier a marker of the timeline carries. *)
Definition marker_id_rule (m : BaseMessage) : Prop :=
  match marker m with
  | Some (AnswerHeader, _) => message_id m = IdMissing
  | Some (_, _) => exists u, message_id m = IdGenerated u
  | None => True
  end.

Definition is_set_messages (e : Event) : bool :=
  match e with EvSetMessages _ => true | _ => false end.

(** The number of array and record nodes of a value. *)
Fixpoint size (v : JVal) : nat :=
  match v with
  | JArr l => S (list_sum (map size l))
  | JObj o => S (list_sum (map (fun kv => size (snd kv)) o))
  | _ => 0
  end.

(** The message [streamMessage] appends for a response whose [answer]
    property reads as [answer]. *)
Definition answer_message (answer response : JVal) (g : nat) : BaseMessage :=
  AIMessage {| inherited := [];
               content := or_else answer response;
               id := Some (uuid_draw g);
               tool_calls := [] |}.

(** A signed-in session in which one question has been asked. *)
Definition asking_state : GraphState :=
  {| runId := "";
     isStreaming := false;
     messages := [HumanMessage (spread_msg (raw "human" "Q"))];
     selectedModel := gemini_2_5_pro;
     threadId := Some "t1";
     uuid_state := 0;
     log := [] |}.

Definition asking_input : GraphInput :=
  {| input_messages := Some [raw "human" "Q"] |}.

(** The events an operation adds to the log, from the state before to
    the state after. *)
Definition new_events (before after : GraphState) : list Event :=
  skipn (List.length (log before)) (log after).

(** ** addDocumentLinks

    [text.replace(/\[(\d+)\]/g, replacer)]. Strings are sequences of
    bytes here; the pattern only involves the ASCII characters [[], []]
    and [0]..[9], which never occur inside the encoding of another
    character, so matching bytes is matching characters. *)

(** [\d]. *)
Definition is_digit (c : ascii) : bool :=
  Nat.leb 48 (nat_of_ascii c) && Nat.leb (nat_of_ascii c) 57.

(** The longest run of digits at the head of a string, and the rest. *)
Fixpoint span_digits (s : string) : string * string :=
  match s with
  | String c s' =>
      if is_digit c
      then let (ds, rest) := span_digits s' in (String c ds, rest)
      else (EmptyString, s)
  | EmptyString => (EmptyString, EmptyString)
  end.

(** The match of [\[(\d+)\]] anchored at the head of a string: the
    captured digits and the text after the match. [\d+] is greedy, and
    giving digits back cannot help since a digit is not a closing
    bracket: there is a match exactly when the longest run of digits
    after the opening bracket is not empty and a closing bracket
    follows it. *)
Definition match_citation (s : string) : option (string * string) :=
  match s with
  | String "[" s1 =>
      match span_digits s1 with
      | (String d ds, String "]" rest) => Some (String d ds, rest)
      | _ => None
      end
  | _ => None
  end.

Definition inspect {A : Type} (x : A) : {y : A | x = y} :=
  exist _ x eq_refl.

(** [text.replace(regex, replacer)] with the global flag: the matches
    are found from left to right and do not overlap; the search goes on
    after a match, and one character further where there is none. The
    replacer receives the matched text and the captured group. *)
Equations? replace_citations (replacer : string -> string -> string)
    (text : string) : string by wf (String.length text) lt :=
replace_citations replacer EmptyString := EmptyString;
replace_citations replacer (String c rest)
  with inspect (match_citation (String c rest)) := {
  | exist _ (Some (number, after)) E =>
      (replacer (String "[" (number ++ "]")) number
       ++ replace_citations replacer after)%string
  | exist _ None E => String c (replace_citations replacer rest) }.
Proof.
  assert (Hspan : forall s,
             String.length (snd (span_digits s)) <= String.length s).
  { induction s as [|x s IH]; simpl; [lia|].
    destruct (is_digit x); simpl; [|lia].
    destruct (span_digits s); simpl in *; lia. }
  change (match_citation (String c rest) = Some (number, after)) in E.
  unfold match_citation in E.
  specialize (Hspan rest).
  destruct (span_digits rest) as [ds r].
  destruct c as [[] [] [] [] [] [] [] []]; try discriminate.
  destruct ds as [|d ds]; try discriminate.
  destruct r as [|c1 r]; try discriminate.
  destruct c1 as [[] [] [] [] [] [] [] []]; try discriminate.
  injection E as _ <-. simpl in *. lia.
Qed.

Definition digit_value (c : ascii) : N := (N_of_ascii c - 48)%N.

(** [parseInt(number, 10)] on a run of digits. The exact value stands
    for the double of the source: they compare alike with the length of
    an array. *)
Fixpoint parseInt_from (acc : N) (digits : string) : N :=
  match digits with
  | EmptyString => acc
  | String c digits' => parseInt_from (acc * 10 + digit_value c)%N digits'
  end.

Definition parseInt (digits : string) : N := parseInt_from 0 digits.

(** [v && v.k]: a truthy value is not nullish, so the property read
    does not throw; of the keys read here ([metadata], [source]) only a
    record can have one. *)
Definition and_member (v : JVal) (k : string) : JVal :=
  if truthy v
  then match v with JObj o => get k o | _ => JUndefined end
  else v.

(** [document && document.metadata && document.metadata.source]. *)
Definition linked_source (document : JVal) : JVal :=
  and_member (and_member document "metadata") "source".

Section DocumentLinks.

(** The text a template literal gives for a value that is not a string
    (a number, a boolean, an array or a record); it is fixed by the
    language runtime. *)
Variable text_of : JVal -> string.

(** [`${v}`]. *)
Definition template_text (v : JVal) : string :=
  match v with
  | JStr s => s
  | _ => text_of v
  end.

(** The replacer of [addDocumentLinks]. [index >= 0] holds of every
    run of digits. *)
Definition link_replacer (inputDocuments : list JVal)
    (matched number : string) : string :=
  let index := parseInt number in
  if N.ltb index (N.of_nat (List.length inputDocuments)) then
    let document := nth (N.to_nat index) inputDocuments JUndefined in
    if truthy (linked_source document)
    then ("[[" ++ number ++ "]](" ++ template_text (linked_source document)
          ++ ")")%string
    else matched
  else matched.

Definition addDocumentLinks (text : string) (inputDocuments : list JVal)
  : string :=
  replace_citations (link_replacer inputDocuments) text.

End DocumentLinks.

(** A run of digits, as [\d+] captures it. *)
Fixpoint all_digits (s : string) : bool :=
  match s with
  | EmptyString => true
  | String c s' => is_digit c && all_digits s'
  end.

Definition starts_with_digit (s : string) : bool :=
  match s with
  | String c _ => is_digit c
  | EmptyString => false
  end.

(** The character [c] occurs in [s]. *)
Fixpoint occurs (c : ascii) (s : string) : bool :=
  match s with
  | EmptyString => false
  | String c' s' => Ascii.eqb c c' || occurs c s'
  end.

(** Documents for the examples: one with a source, one without. *)
Definition example_documents : list JVal :=
  [JObj [("metadata", JObj [("source", JStr "https://a.example/doc")])];
   JObj [("metadata", JObj [("title", JStr "untitled")])]].

(** The raw entries of one type. *)
Definition count_type (t : string) (raws : list Obj) : nat :=
  List.length (filter (is_type t) raws).

(** An entry built from a stored entry: its literal spreads a raw
    entry in. The raw entry it was built from. *)
Definition passed (m : BaseMessage) : bool :=
  match inherited (fields_of m) with
  | [] => false
  | _ :: _ => true
  end.

Definition source_of (m : BaseMessage) : Obj := inherited (fields_of m).

(** The message the callback builds from a human or ai raw entry. *)
Definition pass_through (msg : Obj) : BaseMessage :=
  if is_type "human" msg
  then HumanMessage (spread_msg msg)
  else AIMessage (spread_msg msg).

(** A stored [ai] entry that has the shape of a marker, of whatever
    kind, once passed through. *)
Definition raw_shaped (msg : Obj) : bool :=
  is_type "ai" msg && is_shaped (AIMessage (spread_msg msg)).

(** The markers of each kind the callback builds for a human entry and
    for a decorated [ai] entry. *)
Definition markers_per_human (k : MarkerKind) : nat :=
  match k with Progress => 1 | _ => 0 end.

Definition markers_per_terminal (tv : ThreadValues) (k : MarkerKind) : nat :=
  match k with
  | Progress => 0
  | Router => if truthy (tv_router tv) then 1 else 0
  | SelectedDocuments =>
      if truthy (opt_length (tv_documents tv)) then 1 else 0
  | AnswerHeader => 1
  end.

(** The payload the callback gives a marker of each kind. *)
Definition marker_payload (tv : ThreadValues) (k : MarkerKind) : JVal :=
  match k with
  | Progress => JObj [("step", JNum done_step)]
  | Router => tv_router tv
  | SelectedDocuments => JObj [("documents", tv_documents tv)]
  | AnswerHeader => JObj []
  end.

(** A raw list can be cut in front of [later] without changing how its
    entries are decorated: [later] is empty or starts with a human
    entry. *)
Definition cut_point (later : list Obj) : bool :=
  match later with
  | [] => true
  | next :: _ => is_type "human" next
  end.

(** The thread values with another raw list. *)
Definition with_messages (tv : ThreadValues) (raws : list Obj)
  : ThreadValues :=
  {| tv_messages := raws;
     tv_router := tv_router tv;
     tv_documents := tv_documents tv |}.

(** A conversation of two exchanges, the first answered twice. *)
Definition two_exchanges : list Obj :=
  [raw "human" "Q1"; raw "ai" "draft"; raw "ai" "A1";
   raw "human" "Q2"; raw "ai" "A2"].

(** ** Examples *)

Definition scenario_snapshot : ThreadValues :=
  {| tv_messages := [raw "human" "Q"; raw "ai" "A"];
     tv_router := JObj [("decision", JStr "docs")];
     tv_documents := JArr [JObj [("metadata", JObj [("source", JStr "x")])]] |}.

Example scenario_timeline :
  map entry_of (fst (reconstruct scenario_snapshot 0)) =
  [Human (JStr "Q");
   Marker Progress (JObj [("step", JNum 4)]);
   Marker Router (JObj [("decision", JStr "docs")]);
   Marker SelectedDocuments
     (JObj [("documents",
             JArr [JObj [("metadata", JObj [("source", JStr "x")])]])]);
   Marker AnswerHeader (JObj []);
   Assistant (JStr "A")].
Proof. reflexivity. Qed.

Example step_of_respond : nodeToStep "respond" = 3%Z.
Proof. reflexivity. Qed.

(** * Properties *)

(** ** The callback, case by case *)

Lemma strict_eq_str_inv (v : JVal) (s : string) :
  strict_eq_str v s = true -> v = JStr s.
Proof.
  destruct v; simpl; try discriminate.
  intros H. apply String.eqb_eq in H. now subst.
Qed.

Lemma ai_is_not_human (msg : Obj) :
  is_type "ai" msg = true -> is_type "human" msg = false.
Proof.
  unfold is_type. intros H. apply strict_eq_str_inv in H.
  now rewrite H.
Qed.

Lemma human_is_not_ai (msg : Obj) :
  is_type "human" msg = true -> is_type "ai" msg = false.
Proof.
  unfold is_type. intros H. apply strict_eq_str_inv in H.
  now rewrite H.
Qed.

Lemma callback_human tv msg index array g :
  is_type "human" msg = true ->
  flatMap_callback tv msg index array g =
  ([HumanMessage (spread_msg msg); progressAIMessage (uuid_draw g)], S g).
Proof.
  unfold is_type, flatMap_callback. intros ->. reflexivity.
Qed.

Lemma callback_other tv msg index array g :
  recognized msg = false ->
  flatMap_callback tv msg index array g = ([], g).
Proof.
  unfold recognized, is_type, flatMap_callback. intros H.
  apply orb_false_iff in H. destruct H as [-> ->]. reflexivity.
Qed.

Lemma callback_inner_ai tv msg index array g :
  is_type "ai" msg = true ->
  isLastAiMessage index array = false ->
  flatMap_callback tv msg index array g = ([AIMessage (spread_msg msg)], g).
Proof.
  intros Hai Hlast. pose proof (ai_is_not_human _ Hai) as Hh.
  unfold is_type in *. unfold flatMap_callback.
  rewrite Hh, Hai, Hlast. reflexivity.
Qed.

Lemma callback_terminal_ai tv msg index array g :
  is_type "ai" msg = true ->
  isLastAiMessage index array = true ->
  flatMap_callback tv msg index array g = terminal_output tv msg g.
Proof.
  intros Hai Hlast. pose proof (ai_is_not_human _ Hai) as Hh.
  unfold is_type in *. unfold flatMap_callback, terminal_output.
  rewrite Hh, Hai, Hlast.
  unfold gbind, uuidv4, gret.
  destruct (truthy (tv_router tv));
    destruct (truthy (opt_length (tv_documents tv))); reflexivity.
Qed.

Lemma typed_documents_length (d : JVal) :
  documents_typed d -> truthy (opt_length d) = nonempty_list d.
Proof.
  destruct d as [| | | | |l|]; try contradiction; intros _;
    try reflexivity.
  destruct l; reflexivity.
Qed.

Lemma entry_of_spread_ai (msg : Obj) :
  entry_of (AIMessage (spread_msg msg)) = Assistant (get "content" msg).
Proof. reflexivity. Qed.

Lemma entry_of_spread_human (msg : Obj) :
  entry_of (HumanMessage (spread_msg msg)) = Human (get "content" msg).
Proof. reflexivity. Qed.

Lemma flatMap_from_cons cb array index msg rest g :
  flatMap_from cb array index (msg :: rest) g =
  (fst (cb msg index array g)
   ++ fst (flatMap_from cb array (S index) rest (snd (cb msg index array g))),
   snd (flatMap_from cb array (S index) rest (snd (cb msg index array g)))).
Proof.
  simpl. unfold gbind, gret.
  destruct (cb msg index array g) as [out g1]. simpl.
  destruct (flatMap_from cb array (S index) rest g1) as [outs g2].
  reflexivity.
Qed.

Lemma callback_cases tv msg index array g :
  (is_type "human" msg = true /\
   flatMap_callback tv msg index array g =
   ([HumanMessage (spread_msg msg); progressAIMessage (uuid_draw g)], S g))
  \/ (is_type "ai" msg = true /\ isLastAiMessage index array = true /\
      flatMap_callback tv msg index array g = terminal_output tv msg g)
  \/ (is_type "ai" msg = true /\ isLastAiMessage index array = false /\
      flatMap_callback tv msg index array g =
      ([AIMessage (spread_msg msg)], g))
  \/ (recognized msg = false /\
      flatMap_callback tv msg index array g = ([], g)).
Proof.
  destruct (is_type "human" msg) eqn:Hh.
  - left. split; [reflexivity|]. now apply callback_human.
  - destruct (is_type "ai" msg) eqn:Hai.
    + destruct (isLastAiMessage index array) eqn:Hlast.
      * right; left. repeat split. now apply callback_terminal_ai.
      * right; right; left. repeat split. now apply callback_inner_ai.
    + right; right; right. split.
      * unfold recognized. now rewrite Hh, Hai.
      * apply callback_other. unfold recognized. now rewrite Hh, Hai.
Qed.

(** ** Terminal entries *)

Lemma count_markers_app k l1 l2 :
  count_markers k (l1 ++ l2) = count_markers k l1 + count_markers k l2.
Proof.
  unfold count_markers. now rewrite filter_app, length_app.
Qed.

Lemma terminal_output_one_header tv msg g :
  count_markers AnswerHeader (fst (terminal_output tv msg g)) = 1.
Proof.
  unfold terminal_output. cbn [fst].
  destruct (truthy (tv_router tv));
    destruct (truthy (opt_length (tv_documents tv))); reflexivity.
Qed.

Lemma callback_header_count tv msg index array g :
  count_markers AnswerHeader (fst (flatMap_callback tv msg index array g)) =
  if is_type "ai" msg && isLastAiMessage index array then 1 else 0.
Proof.
  destruct (callback_cases tv msg index array g)
    as [[H E] | [[H [L E]] | [[H [L E]] | [H E]]]]; rewrite E.
  - rewrite (human_is_not_ai _ H). reflexivity.
  - rewrite H, L. apply terminal_output_one_header.
  - rewrite H, L. reflexivity.
  - unfold recognized in H. apply orb_false_iff in H.
    destruct H as [_ ->]. reflexivity.
Qed.

Lemma flatMap_from_header_count tv array rest :
  forall index g,
    count_markers AnswerHeader
      (fst (flatMap_from (flatMap_callback tv) array index rest g)) =
    terminal_count_from array index rest.
Proof.
  induction rest as [|msg rest IH]; intros index g.
  - reflexivity.
  - rewrite flatMap_from_cons. cbn [fst].
    rewrite count_markers_app, callback_header_count, IH. reflexivity.
Qed.

Lemma isLastAiMessage_middle pre msg rest :
  isLastAiMessage (List.length pre) (pre ++ msg :: rest) =
  match rest with
  | [] => true
  | next :: _ => is_type "human" next
  end.
Proof.
  unfold isLastAiMessage. rewrite length_app. cbn [List.length].
  destruct rest as [|next rest]; cbn [List.length].
  - assert (E : (Z.of_nat (List.length pre) =?
                 Z.of_nat (List.length pre + 1) - 1)%Z = true)
      by (apply Z.eqb_eq; lia).
    now rewrite E.
  - assert (E : (Z.of_nat (List.length pre) =?
                 Z.of_nat (List.length pre + S (S (List.length rest))) - 1)%Z
                = false)
      by (apply Z.eqb_neq; lia).
    rewrite E, app_nth2_plus. reflexivity.
Qed.

Lemma successor_read_in_range index (array : list Obj) :
  index < List.length array ->
  Z.of_nat index <> (Z.of_nat (List.length array) - 1)%Z ->
  index + 1 < List.length array.
Proof. lia. Qed.

Lemma terminal_count_from_filter rest :
  forall pre,
    terminal_count_from (pre ++ rest) (List.length pre) rest =
    List.length (filter (code_terminal (pre ++ rest))
                   (seq (List.length pre) (List.length rest))).
Proof.
  induction rest as [|msg rest IH]; intros pre.
  - reflexivity.
  - cbn [terminal_count_from List.length seq filter].
    specialize (IH (pre ++ [msg])).
    rewrite <- app_assoc in IH. cbn [app] in IH.
    rewrite length_app in IH. cbn [List.length] in IH.
    replace (List.length pre + 1) with (S (List.length pre)) in IH by lia.
    rewrite IH.
    unfold code_terminal at 2. rewrite nth_middle.
    destruct (is_type "ai" msg
              && isLastAiMessage (List.length pre) (pre ++ msg :: rest));
      reflexivity.
Qed.

Lemma terminal_count_from_start array :
  terminal_count_from array 0 array = terminal_count array.
Proof. exact (terminal_count_from_filter array []). Qed.

Lemma recognized_not_human msg :
  recognized msg = true -> is_type "human" msg = negb (is_type "ai" msg).
Proof.
  unfold recognized. intros H.
  destruct (is_type "human" msg) eqn:Hh.
  - now rewrite (human_is_not_ai _ Hh).
  - simpl in H. now rewrite H.
Qed.

Lemma nodeToStep_range (node : string) :
  (0 <= nodeToStep node < done_step)%Z.
Proof.
  unfold nodeToStep, done_step.
  repeat match goal with
         | |- context [if ?b then _ else _] => destruct b
         end; lia.
Qed.

Lemma terminal_runs_and_orphans rest :
  forall pre,
    terminal_count_from (pre ++ rest) (List.length pre) rest
    + ai_before_other rest = assistant_runs rest.
Proof.
  induction rest as [|msg rest IH]; intros pre.
  - reflexivity.
  - cbn [terminal_count_from assistant_runs ai_before_other].
    specialize (IH (pre ++ [msg])).
    rewrite <- app_assoc in IH. cbn [app] in IH.
    rewrite length_app in IH. cbn [List.length] in IH.
    replace (List.length pre + 1) with (S (List.length pre)) in IH by lia.
    rewrite isLastAiMessage_middle.
    destruct rest as [|next rest].
    + cbn [terminal_count_from]. destruct (is_type "ai" msg); reflexivity.
    + rewrite <- IH. unfold recognized.
      destruct (is_type "ai" msg); cbn [andb]; [|lia].
      destruct (is_type "human" next) eqn:Hh.
      * rewrite (human_is_not_ai _ Hh). cbn. lia.
      * destruct (is_type "ai" next); cbn; lia.
Qed.

Lemma ai_before_other_suffix pre rest :
  ai_before_other (pre ++ rest) = 0 -> ai_before_other rest = 0.
Proof.
  induction pre as [|msg pre IH]; [trivial|].
  cbn [app ai_before_other]. destruct (pre ++ rest) eqn:E.
  - intros _. destruct pre; [|discriminate]. cbn [app] in E. now subst.
  - intros H. apply IH. lia.
Qed.

Lemma code_terminal_unless_orphan array i :
  ai_before_other array = 0 ->
  i < List.length array ->
  code_terminal array i = spec_terminal array i.
Proof.
  intros Hab Hi.
  destruct (nth_split array [] Hi) as [pre [rest [E Hlen]]].
  set (msg := nth i array []) in *. clearbody msg.
  subst i. rewrite E in *.
  unfold code_terminal, spec_terminal.
  rewrite nth_middle, isLastAiMessage_middle.
  replace (skipn (S (List.length pre)) (pre ++ msg :: rest)) with rest.
  2:{ change (msg :: rest) with ([msg] ++ rest). rewrite app_assoc.
      replace (S (List.length pre)) with (List.length (pre ++ [msg]) + 0).
      - rewrite skipn_app. now rewrite Nat.add_0_r, skipn_all, Nat.sub_diag.
      - rewrite length_app. simpl. lia. }
  destruct (is_type "ai" msg) eqn:Hai; [|reflexivity]. cbn [andb].
  destruct rest as [|next rest]; [reflexivity|].
  apply ai_before_other_suffix in Hab.
  cbn [ai_before_other no_assistant_before_human] in *.
  rewrite Hai in Hab. unfold recognized in Hab.
  destruct (is_type "human" next); [reflexivity|].
  destruct (is_type "ai" next); [reflexivity|].
  cbn in Hab. lia.
Qed.

Lemma code_terminal_is_terminal array i :
  i < List.length array ->
  code_terminal array i = true -> spec_terminal array i = true.
Proof.
  intros Hi.
  destruct (nth_split array [] Hi) as [pre [rest [E Hlen]]].
  set (msg := nth i array []) in *. clearbody msg.
  subst i. rewrite E in *.
  unfold code_terminal, spec_terminal.
  rewrite nth_middle, isLastAiMessage_middle.
  replace (skipn (S (List.length pre)) (pre ++ msg :: rest)) with rest.
  2:{ change (msg :: rest) with ([msg] ++ rest). rewrite app_assoc.
      replace (S (List.length pre)) with (List.length (pre ++ [msg]) + 0).
      - rewrite skipn_app. now rewrite Nat.add_0_r, skipn_all, Nat.sub_diag.
      - rewrite length_app. simpl. lia. }
  destruct (is_type "ai" msg); [|discriminate]. cbn [andb].
  destruct rest as [|next rest]; [reflexivity|].
  cbn [no_assistant_before_human]. now intros ->.
Qed.

(** ** Built and stored entries *)

Lemma built_shape (m : BaseMessage) :
  inherited (fields_of m) = [] -> shape m = marker m.
Proof.
  destruct m as [f|f]; cbn [fields_of shape marker]; [reflexivity|].
  intros E. unfold effective_tool_calls. rewrite E.
  destruct (tool_calls f); reflexivity.
Qed.

Lemma marker_is_shape (m : BaseMessage) x :
  marker m = Some x -> shape m = Some x.
Proof.
  destruct m as [f|f]; cbn [shape marker]; [discriminate|].
  unfold effective_tool_calls.
  destruct (tool_calls f) as [|tc calls]; [discriminate | trivial].
Qed.

Lemma spread_ai_not_built msg :
  marker (AIMessage (spread_msg msg)) = None.
Proof. reflexivity. Qed.

Lemma spread_human_shape msg :
  shape (HumanMessage (spread_msg msg)) = None.
Proof. reflexivity. Qed.

Lemma shaped_of_spread k msg :
  is_type "ai" msg = true ->
  is_shaped_of k (AIMessage (spread_msg msg)) = raw_shaped_of k msg.
Proof. unfold raw_shaped_of. now intros ->. Qed.

Lemma count_shaped_app k l1 l2 :
  count_shaped k (l1 ++ l2) = count_shaped k l1 + count_shaped k l2.
Proof.
  unfold count_shaped. now rewrite filter_app, length_app.
Qed.

Lemma count_shaped_built k l :
  Forall (fun m => shape m = marker m) l ->
  count_shaped k l = count_markers k l.
Proof.
  intros H. unfold count_shaped, count_markers. f_equal.
  apply filter_ext_in. intros m Hin.
  rewrite Forall_forall in H. unfold is_shaped_of, is_marker_of.
  now rewrite (H m Hin).
Qed.

(** What the callback builds for a decorated entry: the markers, all
    built from literals, then the entry itself. *)
Lemma terminal_output_parts tv msg g :
  exists built,
    fst (terminal_output tv msg g) = built ++ [AIMessage (spread_msg msg)]
    /\ Forall (fun m => shape m = marker m /\ is_marker m = true
                        /\ inherited (fields_of m) = []) built
    /\ count_markers Progress built = 0
    /\ map shown built =
       (if truthy (tv_router tv)
        then [Marker Router (tv_router tv)] else [])
       ++ (if truthy (opt_length (tv_documents tv))
           then [Marker SelectedDocuments
                   (JObj [("documents", tv_documents tv)])]
           else [])
       ++ [Marker AnswerHeader (JObj [])].
Proof.
  unfold terminal_output. cbn [fst].
  destruct (truthy (tv_router tv));
    destruct (truthy (opt_length (tv_documents tv))); cbn [app].
  - exists [routerMessage (uuid_draw g) (tv_router tv);
            selectedDocumentsAIMessage (uuid_draw (S g)) (tv_documents tv);
            answerHeaderToolMsg].
    repeat split; repeat constructor.
  - exists [routerMessage (uuid_draw g) (tv_router tv); answerHeaderToolMsg].
    repeat split; repeat constructor.
  - exists [selectedDocumentsAIMessage (uuid_draw g) (tv_documents tv);
            answerHeaderToolMsg].
    repeat split; repeat constructor.
  - exists [answerHeaderToolMsg].
    repeat split; repeat constructor.
Qed.

Lemma built_or_stored_incl raws raws' m :
  incl raws raws' -> built_or_stored raws m -> built_or_stored raws' m.
Proof.
  intros Hincl [H | [H | [msg [Hin H]]]]; [now left | now right; left |].
  right; right. exists msg. split; [now apply Hincl | exact H].
Qed.

Lemma callback_built_or_stored tv msg index array g :
  Forall (built_or_stored [msg])
    (fst (flatMap_callback tv msg index array g)).
Proof.
  assert (Hstored : is_type "ai" msg = true ->
                    built_or_stored [msg] (AIMessage (spread_msg msg))).
  { intros Hai. right; right. exists msg. repeat split; [now left | exact Hai]. }
  destruct (callback_cases tv msg index array g)
    as [[H E] | [[H [L E]] | [[H [L E]] | [H E]]]]; rewrite E.
  - cbn [fst]. constructor; [right; left; repeat split|].
    constructor; [left; split; reflexivity | constructor].
  - destruct (terminal_output_parts tv msg g) as [built [-> [Hb _]]].
    apply Forall_app. split.
    + eapply Forall_impl; [|exact Hb]. intros m [Hs [_ Hi]]. now left.
    + constructor; [now apply Hstored | constructor].
  - cbn [fst]. constructor; [now apply Hstored | constructor].
  - constructor.
Qed.

Lemma flatMap_from_built_or_stored tv array rest :
  forall index g,
    Forall (built_or_stored rest)
      (fst (flatMap_from (flatMap_callback tv) array index rest g)).
Proof.
  induction rest as [|msg rest IH]; intros index g.
  - constructor.
  - rewrite flatMap_from_cons. cbn [fst]. apply Forall_app. split.
    + eapply Forall_impl; [|apply callback_built_or_stored].
      intros m. apply built_or_stored_incl.
      intros x [<- | []]. now left.
    + eapply Forall_impl; [|apply IH].
      intros m. apply built_or_stored_incl. apply incl_tl, incl_refl.
Qed.

Lemma reconstruct_built_or_stored tv g :
  Forall (built_or_stored (tv_messages tv)) (fst (reconstruct tv g)).
Proof. apply flatMap_from_built_or_stored. Qed.

Lemma shaped_not_built_is_stored raws k m :
  built_or_stored raws m ->
  is_shaped_of k m = true ->
  is_marker_of k m = false ->
  exists msg,
    In msg raws /\ raw_shaped_of k msg = true
    /\ m = AIMessage (spread_msg msg).
Proof.
  intros [[Hs _] | [[Hs _] | [msg [Hin [Hai ->]]]]] Hshaped Hbuilt.
  - unfold is_shaped_of, is_marker_of in *. rewrite Hs in Hshaped. congruence.
  - unfold is_shaped_of in Hshaped. rewrite Hs in Hshaped. discriminate.
  - exists msg. repeat split; [exact Hin|].
    now rewrite <- (shaped_of_spread k msg Hai).
Qed.

Lemma unshaped_raws_agree raws k m :
  Forall (fun msg => raw_shaped_of k msg = false) raws ->
  built_or_stored raws m ->
  is_shaped_of k m = is_marker_of k m.
Proof.
  intros Hraws [[Hs _] | [[Hs [Hm _]] | [msg [Hin [Hai ->]]]]].
  - unfold is_shaped_of, is_marker_of. now rewrite Hs.
  - unfold is_shaped_of, is_marker_of. now rewrite Hs, Hm.
  - rewrite (shaped_of_spread k msg Hai).
    rewrite Forall_forall in Hraws. rewrite (Hraws msg Hin).
    reflexivity.
Qed.

Lemma leading_shaped_built built l :
  Forall (fun m => is_shaped m = true) built ->
  leading_shaped (built ++ l) = built ++ leading_shaped l.
Proof.
  induction 1 as [|m built Hm _ IH]; [reflexivity|].
  cbn [app leading_shaped]. now rewrite Hm, IH.
Qed.

Lemma Forall_leading_shaped (P : BaseMessage -> Prop) l :
  Forall P l -> Forall P (leading_shaped l).
Proof.
  induction 1 as [|m l Hm _ IH]; [constructor|].
  cbn [leading_shaped]. destruct (is_shaped m); now constructor.
Qed.

(** ** C1 *)

(** C1, as stated, fails: with a [system] entry after the answer, the
    [ai] entry is the last assistant entry before the end of the raw
    list, a terminal entry, and the callback emits it alone, without
    the answer-header marker that is always to be emitted. *)
Lemma terminal_entry_before_other_type_undecorated :
  spec_terminal (tv_messages trailing_system_snapshot) 0 = true
  /\ nth_error (tv_messages trailing_system_snapshot) 0 =
     Some [("type", JStr "ai"); ("content", JStr "A")]
  /\ fst (flatMap_callback trailing_system_snapshot
            [("type", JStr "ai"); ("content", JStr "A")] 0
            (tv_messages trailing_system_snapshot) 0) =
     [AIMessage (spread_msg [("type", JStr "ai"); ("content", JStr "A")])]
  /\ map shown
       (fst (flatMap_callback trailing_system_snapshot
               [("type", JStr "ai"); ("content", JStr "A")] 0
               (tv_messages trailing_system_snapshot) 0)) =
     [Assistant (JStr "A")].
Proof. repeat split. Qed.

(** C1, amended. For an assistant entry that is the last entry of the
    raw list or is directly followed by a human entry (a terminal entry
    that no entry of another type follows directly), the callback
    emits, in this order: a router marker carrying [router] exactly when
    [router] is truthy; a selected-documents marker carrying
    [{documents}] exactly when [documents] is a non-empty list; an
    answer-header marker; then the stored assistant entry itself, with
    its own content. Such an entry is the last assistant entry before
    the next human entry or the end of the list. The scenario snapshot
    reconstructs to Human Q, progress, router, selected-documents,
    answer-header, Assistant A. *)
Theorem terminal_entry_markers_in_order :
  (forall tv msg index array g,
      nth_error array index = Some msg ->
      is_type "ai" msg = true ->
      isLastAiMessage index array = true ->
      documents_typed (tv_documents tv) ->
      exists built,
        fst (flatMap_callback tv msg index array g) =
        built ++ [AIMessage (spread_msg msg)]
        /\ map shown built =
           (if truthy (tv_router tv)
            then [Marker Router (tv_router tv)] else [])
           ++ (if nonempty_list (tv_documents tv)
               then [Marker SelectedDocuments
                       (JObj [("documents", tv_documents tv)])]
               else [])
           ++ [Marker AnswerHeader (JObj [])]
        /\ content (spread_msg msg) = get "content" msg
        /\ spec_terminal array index = true)
  /\ (forall g,
        map shown (fst (reconstruct scenario_snapshot g)) =
        [Human (JStr "Q");
         Marker Progress (JObj [("step", JNum 4)]);
         Marker Router (JObj [("decision", JStr "docs")]);
         Marker SelectedDocuments
           (JObj [("documents",
                   JArr [JObj [("metadata",
                                JObj [("source", JStr "x")])]])]);
         Marker AnswerHeader (JObj []);
         Assistant (JStr "A")]).
Proof.
  split.
  - intros tv msg index array g Hnth Hai Hlast Hdocs.
    rewrite (callback_terminal_ai _ _ _ _ _ Hai Hlast).
    destruct (terminal_output_parts tv msg g) as [built [E [_ [_ Hshown]]]].
    exists built. rewrite (typed_documents_length _ Hdocs) in Hshown.
    repeat split; try assumption.
    assert (Hi : index < List.length array)
      by (apply nth_error_Some; congruence).
    apply code_terminal_is_terminal; [exact Hi|].
    unfold code_terminal.
    rewrite (nth_error_nth array index [] Hnth), Hai. exact Hlast.
  - intros g. reflexivity.
Qed.

Lemma terminal_entry_markers_in_order_witness :
  exists built,
    fst (flatMap_callback scenario_snapshot (raw "ai" "A") 1
           (tv_messages scenario_snapshot) 1) =
    built ++ [AIMessage (spread_msg (raw "ai" "A"))]
    /\ map shown built =
       [Marker Router (JObj [("decision", JStr "docs")]);
        Marker SelectedDocuments
          (JObj [("documents",
                  JArr [JObj [("metadata", JObj [("source", JStr "x")])]])]);
        Marker AnswerHeader (JObj [])]
    /\ content (spread_msg (raw "ai" "A")) = JStr "A"
    /\ spec_terminal (tv_messages scenario_snapshot) 1 = true.
Proof.
  apply (proj1 terminal_entry_markers_in_order scenario_snapshot
           (raw "ai" "A") 1 (tv_messages scenario_snapshot) 1).
  - reflexivity.
  - reflexivity.
  - reflexivity.
  - exact I.
Defined.

(** ** C2 *)

Lemma humans_followed_after l outs :
  Forall (fun m => is_human m = false) l ->
  humans_followed outs ->
  humans_followed (l ++ outs).
Proof.
  induction 1 as [|m l Hm _ IH]; intros Houts; [exact Houts|].
  cbn [app humans_followed]. split; [congruence | now apply IH].
Qed.

Lemma leading_shaped_spread_ai msg outs :
  count_markers Progress (leading_shaped outs) = 0 ->
  count_markers Progress
    (leading_shaped (AIMessage (spread_msg msg) :: outs)) = 0.
Proof.
  intros H. cbn [leading_shaped].
  destruct (is_shaped (AIMessage (spread_msg msg))); [|reflexivity].
  change (AIMessage (spread_msg msg) :: leading_shaped outs)
    with ([AIMessage (spread_msg msg)] ++ leading_shaped outs).
  now rewrite count_markers_app, H.
Qed.

Lemma built_markers_shaped built :
  Forall (fun m => shape m = marker m /\ is_marker m = true
                   /\ inherited (fields_of m) = []) built ->
  Forall (fun m => is_shaped m = true) built
  /\ Forall (fun m => is_human m = false) built.
Proof.
  induction 1 as [|m built [Hs [Hm _]] _ [IH1 IH2]]; [split; constructor|].
  split; constructor; try assumption.
  - unfold is_shaped, is_marker in *. now rewrite Hs.
  - destruct m; [discriminate Hm | reflexivity].
Qed.

Lemma flatMap_from_humans_followed tv array rest :
  forall index g,
    humans_followed
      (fst (flatMap_from (flatMap_callback tv) array index rest g))
    /\ count_markers Progress
         (leading_shaped
            (fst (flatMap_from (flatMap_callback tv) array index rest g))) = 0.
Proof.
  induction rest as [|msg rest IH]; intros index g.
  - split; [exact I | reflexivity].
  - rewrite flatMap_from_cons. cbn [fst].
    destruct (callback_cases tv msg index array g)
      as [[_ E] | [[_ [_ E]] | [[_ [_ E]] | [_ E]]]]; rewrite E; cbn [fst snd].
    + destruct (IH (S index) (S g)) as [IHh IHc].
      split; [|reflexivity].
      cbn [app humans_followed]. split.
      * intros _. split; [now eexists _, _|].
        change (count_markers Progress
                  (leading_shaped
                     ([progressAIMessage (uuid_draw g)]
                      ++ fst (flatMap_from (flatMap_callback tv) array
                                (S index) rest (S g)))) = 1).
        rewrite leading_shaped_built by (repeat constructor).
        now rewrite count_markers_app, IHc.
      * split; [discriminate | exact IHh].
    + destruct (IH (S index) (snd (terminal_output tv msg g))) as [IHh IHc].
      destruct (terminal_output_parts tv msg g) as [built [-> [Hb [Hp _]]]].
      destruct (built_markers_shaped built Hb) as [Hshaped Hnothuman].
      rewrite <- app_assoc. cbn [app]. split.
      * apply humans_followed_after; [exact Hnothuman|].
        cbn [humans_followed]. split; [discriminate | exact IHh].
      * rewrite (leading_shaped_built built _ Hshaped).
        rewrite count_markers_app, Hp.
        now apply leading_shaped_spread_ai.
    + destruct (IH (S index) g) as [IHh IHc].
      cbn [app]. split.
      * cbn [humans_followed]. split; [discriminate | exact IHh].
      * now apply leading_shaped_spread_ai.
    + exact (IH (S index) g).
Qed.

Lemma humans_followed_split l :
  humans_followed l ->
  forall pre f post,
    l = pre ++ HumanMessage f :: post -> followed_by_built_progress post.
Proof.
  intros H pre. revert l H.
  induction pre as [|m pre IH]; intros l H f post ->.
  - simpl in H. now apply H.
  - simpl in H. destruct H as [_ H]. now apply (IH _ H f post).
Qed.

(** C2, as stated, fails: when the answer stored after a question has
    itself the shape of a progress marker, the human message is
    followed, before any entry that is not a marker, by two progress
    markers, the one built for it and the stored one, whose step is
    not the final step. *)
Lemma stored_progress_after_human :
  fst (reconstruct stored_progress_snapshot 0) =
  [HumanMessage (spread_msg [("type", JStr "human"); ("content", JStr "Q")]);
   progressAIMessage (uuid_draw 0);
   answerHeaderToolMsg;
   AIMessage
     (spread_msg
        [("type", JStr "ai"); ("content", JStr "");
         ("tool_calls",
          JArr [JObj [("name", JStr "progress");
                      ("args", JObj [("step", JNum 1)])]])])]
  /\ map shown (fst (reconstruct stored_progress_snapshot 0)) =
     [Human (JStr "Q");
      Marker Progress (JObj [("step", JNum 4)]);
      Marker AnswerHeader (JObj []);
      Marker Progress (JObj [("step", JNum 1)])]
  /\ count_shaped Progress
       (leading_shaped (tl (fst (reconstruct stored_progress_snapshot 0)))) = 2.
Proof. repeat split. Qed.

(** C2, amended. In the timeline reconstructed for any stored snapshot,
    a human message is immediately followed by the progress marker
    built for it, whose payload is [{step: 4}], the step past every
    step [nodeToStep] assigns to a node (processing complete), and this
    is the only progress marker the callback builds before the next
    entry that is not marker-shaped. Any other progress-shaped entry
    there is an [ai] entry stored with that shape and passed through;
    when no [ai] entry is stored with the shape of a progress marker,
    the progress marker after a human message is exactly one. *)
Theorem human_followed_by_one_progress :
  forall tv g pre f post,
    fst (reconstruct tv g) = pre ++ HumanMessage f :: post ->
    (exists u post',
        post = progressAIMessage u :: post'
        /\ shown (progressAIMessage u) =
           Marker Progress (JObj [("step", JNum done_step)]))
    /\ count_markers Progress (leading_shaped post) = 1
    /\ (forall m,
           In m (leading_shaped post) ->
           is_shaped_of Progress m = true ->
           is_marker_of Progress m = false ->
           exists msg,
             In msg (tv_messages tv) /\ raw_shaped_of Progress msg = true
             /\ m = AIMessage (spread_msg msg))
    /\ (Forall (fun msg => raw_shaped_of Progress msg = false)
          (tv_messages tv) ->
        count_shaped Progress (leading_shaped post) = 1)
    /\ (forall node, (nodeToStep node < done_step)%Z)
    /\ done_step = (nodeToStep "respond" + 1)%Z.
Proof.
  intros tv g pre f post E.
  destruct (flatMap_from_humans_followed tv (tv_messages tv)
              (tv_messages tv) 0 g) as [H _].
  destruct (humans_followed_split _ H pre f post E)
    as [[u [post' ->]] Hc].
  pose proof (reconstruct_built_or_stored tv g) as Hall.
  rewrite E in Hall. apply Forall_app in Hall. destruct Hall as [_ Hall].
  apply Forall_inv_tail in Hall. apply Forall_leading_shaped in Hall.
  split; [|split; [|split; [|split; [|split]]]].
  - now exists u, post'.
  - exact Hc.
  - intros m Hin Hs Hb. rewrite Forall_forall in Hall.
    now apply (shaped_not_built_is_stored _ _ _ (Hall m Hin)).
  - intros Hraws. rewrite <- Hc.
    unfold count_shaped, count_markers. f_equal.
    apply filter_ext_in. intros m Hin. rewrite Forall_forall in Hall.
    now apply (unshaped_raws_agree (tv_messages tv)); [|apply Hall].
  - intros node. apply nodeToStep_range.
  - reflexivity.
Qed.

Lemma human_followed_by_one_progress_witness :
  count_shaped Progress
    (leading_shaped
       [progressAIMessage (uuid_draw 0);
        routerMessage (uuid_draw 1) (tv_router scenario_snapshot);
        selectedDocumentsAIMessage (uuid_draw 2)
          (tv_documents scenario_snapshot);
        answerHeaderToolMsg;
        AIMessage (spread_msg (raw "ai" "A"))]) = 1.
Proof.
  refine (proj1 (proj2 (proj2 (proj2
            (human_followed_by_one_progress scenario_snapshot 0 []
               (spread_msg (raw "human" "Q")) _ eq_refl)))) _).
  repeat constructor.
Defined.

(** ** C3 *)

Lemma callback_shaped_count tv k msg index array g :
  count_shaped k (fst (flatMap_callback tv msg index array g)) =
  count_markers k (fst (flatMap_callback tv msg index array g))
  + (if raw_shaped_of k msg then 1 else 0).
Proof.
  assert (Hspread : is_type "ai" msg = true ->
            count_shaped k [AIMessage (spread_msg msg)] =
            count_markers k [AIMessage (spread_msg msg)]
            + (if raw_shaped_of k msg then 1 else 0)).
  { intros Hai. unfold count_shaped, count_markers. cbn [filter].
    rewrite (shaped_of_spread k msg Hai).
    change (is_marker_of k (AIMessage (spread_msg msg))) with false.
    now destruct (raw_shaped_of k msg). }
  destruct (callback_cases tv msg index array g)
    as [[H E] | [[H [L E]] | [[H [L E]] | [H E]]]]; rewrite E; cbn [fst].
  - unfold raw_shaped_of. rewrite (human_is_not_ai _ H). cbn [andb].
    rewrite Nat.add_0_r. apply count_shaped_built.
    repeat constructor.
  - destruct (terminal_output_parts tv msg g) as [built [-> [Hb _]]].
    rewrite count_shaped_app, count_markers_app, (Hspread H).
    rewrite (count_shaped_built k built); [lia|].
    eapply Forall_impl; [|exact Hb]. now intros m [Hs _].
  - now apply Hspread.
  - unfold raw_shaped_of, recognized in *. apply orb_false_iff in H.
    destruct H as [_ ->]. reflexivity.
Qed.

Lemma flatMap_from_shaped_count tv k array rest :
  forall index g,
    count_shaped k
      (fst (flatMap_from (flatMap_callback tv) array index rest g)) =
    count_markers k
      (fst (flatMap_from (flatMap_callback tv) array index rest g))
    + stored_shaped k rest.
Proof.
  induction rest as [|msg rest IH]; intros index g.
  - reflexivity.
  - rewrite flatMap_from_cons. cbn [fst].
    rewrite count_shaped_app, count_markers_app, callback_shaped_count, IH.
    unfold stored_shaped. cbn [filter].
    destruct (raw_shaped_of k msg); cbn [List.length]; lia.
Qed.

Lemma answer_headers_count_code_terminal tv g :
  count_markers AnswerHeader (fst (reconstruct tv g)) =
  terminal_count (tv_messages tv).
Proof.
  unfold reconstruct, flatMap.
  now rewrite flatMap_from_header_count, terminal_count_from_start.
Qed.

(** The answer-header markers the callback builds are as many as the
    assistant-only runs less the [ai] entries directly followed by an
    entry of another type. *)
Lemma answer_headers_and_orphans tv g :
  count_markers AnswerHeader (fst (reconstruct tv g))
  + ai_before_other (tv_messages tv) = assistant_runs (tv_messages tv).
Proof.
  unfold reconstruct, flatMap. rewrite flatMap_from_header_count.
  exact (terminal_runs_and_orphans (tv_messages tv) []).
Qed.

(** C3, as stated, fails. With a [system] entry after the answer, the
    [ai] entry is the last assistant entry before the end but is not
    decorated, so the timeline has no answer-header marker for the one
    assistant-only run of the input. With an answer stored in the
    shape of an answer-header marker, the timeline shows two
    answer-header markers for the one run. *)
Lemma answer_header_missed_before_other_type :
  spec_terminal (tv_messages trailing_system_snapshot) 0 = true
  /\ code_terminal (tv_messages trailing_system_snapshot) 0 = false
  /\ assistant_runs (tv_messages trailing_system_snapshot) = 1
  /\ count_shaped AnswerHeader
       (fst (reconstruct trailing_system_snapshot 0)) = 0
  /\ count_shaped AnswerHeader
       (fst (reconstruct trailing_system_snapshot 0))
     <> assistant_runs (tv_messages trailing_system_snapshot)
  /\ assistant_runs (tv_messages stored_header_snapshot) = 1
  /\ count_shaped AnswerHeader
       (fst (reconstruct stored_header_snapshot 0)) = 2.
Proof.
  repeat split; try reflexivity. discriminate.
Qed.

(** C3, amended. For every stored snapshot in which no [ai] entry is
    directly followed by an entry whose type is neither human nor ai,
    the callback puts an answer-header marker on an [ai] entry exactly
    when it is the last assistant entry before the next human entry or
    the end of the raw list, and the number of answer-header markers it
    adds to the timeline is the number of maximal contiguous
    assistant-only runs of the raw list. The timeline holds, besides
    these, the [ai] entries stored in the shape of an answer-header
    marker, which are passed through: its answer-header-shaped entries
    are the runs plus those stored entries. *)
Theorem answer_headers_count_assistant_runs :
  forall tv g,
    ai_before_other (tv_messages tv) = 0 ->
    (forall i g',
        i < List.length (tv_messages tv) ->
        count_markers AnswerHeader
          (fst (flatMap_callback tv (nth i (tv_messages tv) []) i
                  (tv_messages tv) g')) =
        if spec_terminal (tv_messages tv) i then 1 else 0)
    /\ count_markers AnswerHeader (fst (reconstruct tv g)) =
       assistant_runs (tv_messages tv)
    /\ count_shaped AnswerHeader (fst (reconstruct tv g)) =
       assistant_runs (tv_messages tv)
       + stored_shaped AnswerHeader (tv_messages tv).
Proof.
  intros tv g Hab.
  assert (Hbuilt : count_markers AnswerHeader (fst (reconstruct tv g)) =
                   assistant_runs (tv_messages tv)).
  { pose proof (answer_headers_and_orphans tv g) as H. lia. }
  split; [|split].
  - intros i g' Hi.
    rewrite callback_header_count.
    rewrite <- (code_terminal_unless_orphan _ _ Hab Hi).
    reflexivity.
  - exact Hbuilt.
  - rewrite <- Hbuilt. apply flatMap_from_shaped_count.
Qed.

Lemma answer_headers_count_assistant_runs_witness :
  count_shaped AnswerHeader
    (fst (reconstruct
            (with_messages scenario_snapshot
               [raw "system" "S"; raw "human" "Q"; raw "ai" "A"]) 0)) =
  assistant_runs [raw "system" "S"; raw "human" "Q"; raw "ai" "A"]
  + stored_shaped AnswerHeader
      [raw "system" "S"; raw "human" "Q"; raw "ai" "A"].
Proof.
  apply (proj2 (proj2
           (answer_headers_count_assistant_runs
              (with_messages scenario_snapshot
                 [raw "system" "S"; raw "human" "Q"; raw "ai" "A"]) 0
              eq_refl))).
Defined.

(** ** C7 *)

Lemma callback_erase_id tv msg index array g1 g2 :
  map erase_id (fst (flatMap_callback tv msg index array g1)) =
  map erase_id (fst (flatMap_callback tv msg index array g2)).
Proof.
  destruct (callback_cases tv msg index array g1)
    as [[H E] | [[H [L E]] | [[H [L E]] | [H E]]]]; rewrite E.
  - now rewrite (callback_human tv msg index array g2 H).
  - rewrite (callback_terminal_ai tv msg index array g2 H L).
    unfold terminal_output. cbn [fst].
    destruct (truthy (tv_router tv));
      destruct (truthy (opt_length (tv_documents tv))); reflexivity.
  - now rewrite (callback_inner_ai tv msg index array g2 H L).
  - now rewrite (callback_other tv msg index array g2 H).
Qed.

Lemma flatMap_from_erase_id tv array rest :
  forall index g1 g2,
    map erase_id
      (fst (flatMap_from (flatMap_callback tv) array index rest g1)) =
    map erase_id
      (fst (flatMap_from (flatMap_callback tv) array index rest g2)).
Proof.
  induction rest as [|msg rest IH]; intros index g1 g2.
  - reflexivity.
  - rewrite !flatMap_from_cons. cbn [fst]. rewrite !map_app.
    f_equal.
    + apply callback_erase_id.
    + apply IH.
Qed.

Lemma switchSelectedThread_eq thread s :
  switchSelectedThread thread s =
  (Normal tt,
   {| runId := runId s;
      isStreaming := isStreaming s;
      messages := match values thread with
                  | None => []
                  | Some tv => fst (reconstruct tv (uuid_state s))
                  end;
      selectedModel := selectedModel s;
      threadId := Some (thread_id thread);
      uuid_state := match values thread with
                    | None => uuid_state s
                    | Some tv => snd (reconstruct tv (uuid_state s))
                    end;
      log := log s ++
             [EvSetThreadId (thread_id thread);
              EvSetMessages
                match values thread with
                | None => []
                | Some tv => fst (reconstruct tv (uuid_state s))
                end] |}).
Proof.
  unfold switchSelectedThread, bind, setThreadId, setMessages, with_uuid, emit.
  destruct (values thread) as [tv|]; cbn.
  - destruct (reconstruct tv (uuid_state s)) as [out g'] eqn:E. cbn.
    now rewrite <- app_assoc.
  - now rewrite <- app_assoc.
Qed.

(** C7. Reconstructing the same snapshot twice, whatever identifiers
    the generator hands out, yields timelines of the same length that
    are equal entry by entry once the generated identifiers are
    ignored. The snapshot is only read: switching to the same thread a second time
    shows the same timeline again, and apart from the generator of
    identifiers the switch touches the thread identifier and the
    timeline only. *)
Theorem reconstruct_twice_same_timeline :
  forall tv g1 g2,
    map erase_id (fst (reconstruct tv g1)) =
    map erase_id (fst (reconstruct tv g2))
    /\ List.length (fst (reconstruct tv g1)) =
       List.length (fst (reconstruct tv g2))
    /\ (forall thread s,
           let s1 := snd (switchSelectedThread thread s) in
           let s2 := snd (switchSelectedThread thread s1) in
           map erase_id (messages s2) = map erase_id (messages s1)
           /\ runId s1 = runId s
           /\ isStreaming s1 = isStreaming s
           /\ selectedModel s1 = selectedModel s).
Proof.
  intros tv g1 g2.
  assert (E : map erase_id (fst (reconstruct tv g1)) =
              map erase_id (fst (reconstruct tv g2)))
    by apply flatMap_from_erase_id.
  split; [exact E|]. split.
  - rewrite <- (length_map erase_id (fst (reconstruct tv g1))), E.
    apply length_map.
  - intros thread s s1 s2. subst s1 s2.
    rewrite !switchSelectedThread_eq. cbn.
    repeat split.
    destruct (values thread) as [tv'|]; [|reflexivity].
    apply flatMap_from_erase_id.
Qed.

(** ** C8 *)

Lemma flatMap_from_unrecognized tv array rest :
  Forall (fun m => recognized m = false) rest ->
  forall index g,
    flatMap_from (flatMap_callback tv) array index rest g = ([], g).
Proof.
  induction 1 as [|msg rest Hmsg _ IH]; intros index g.
  - reflexivity.
  - rewrite flatMap_from_cons, (callback_other _ _ _ _ _ Hmsg). cbn.
    now rewrite IH.
Qed.

Lemma marker_passed_through raws m :
  is_marker m = true -> passed_through raws m.
Proof. intros H H'. congruence. Qed.

Lemma spread_passed_through msg (m : BaseMessage) :
  recognized msg = true ->
  inherited (fields_of m) = msg ->
  passed_through [msg] m.
Proof.
  intros Hr E _. rewrite E. split; [exact Hr | now left].
Qed.

Lemma callback_passed_through tv msg index array g :
  Forall (passed_through [msg]) (fst (flatMap_callback tv msg index array g)).
Proof.
  destruct (callback_cases tv msg index array g)
    as [[H E] | [[H [L E]] | [[H [L E]] | [H E]]]]; rewrite E; cbn [fst].
  - constructor; [|constructor; [|constructor]].
    + apply spread_passed_through; [|reflexivity].
      unfold recognized. now rewrite H.
    + now apply marker_passed_through.
  - assert (Hm : passed_through [msg] (AIMessage (spread_msg msg))).
    { apply spread_passed_through; [|reflexivity].
      unfold recognized. rewrite H. apply orb_true_r. }
    unfold terminal_output.
    destruct (truthy (tv_router tv));
      destruct (truthy (opt_length (tv_documents tv)));
      cbn [app];
      repeat (apply Forall_cons;
              [first [exact Hm | now apply marker_passed_through]|]);
      apply Forall_nil.
  - constructor; [|constructor].
    apply spread_passed_through; [|reflexivity].
    unfold recognized. rewrite H. apply orb_true_r.
  - constructor.
Qed.

Lemma passed_through_incl raws raws' m :
  incl raws raws' -> passed_through raws m -> passed_through raws' m.
Proof.
  intros Hincl H Hm. destruct (H Hm) as [Hr Hin].
  split; [exact Hr | now apply Hincl].
Qed.

Lemma flatMap_from_passed_through tv array rest :
  forall index g,
    Forall (passed_through rest)
      (fst (flatMap_from (flatMap_callback tv) array index rest g)).
Proof.
  induction rest as [|msg rest IH]; intros index g.
  - constructor.
  - rewrite flatMap_from_cons. cbn [fst]. apply Forall_app. split.
    + eapply Forall_impl; [|apply callback_passed_through].
      intros m. apply passed_through_incl.
      intros x [<- | []]. now left.
    + eapply Forall_impl; [|apply IH].
      intros m. apply passed_through_incl. apply incl_tl, incl_refl.
Qed.

(** C8. A raw entry whose type is neither human nor ai yields nothing
    at its place in the walk, neither a message nor a marker, and draws
    no identifier; every entry of the timeline that is not a marker is a
    human or ai raw entry passed through; a raw list without any human
    or ai entry reconstructs to the empty timeline. *)
Theorem unrecognized_entries_filtered :
  forall tv,
    (forall msg index array g,
        recognized msg = false ->
        flatMap_callback tv msg index array g = ([], g))
    /\ (forall g,
           Forall (passed_through (tv_messages tv)) (fst (reconstruct tv g)))
    /\ (forall g,
           Forall (fun m => recognized m = false) (tv_messages tv) ->
           reconstruct tv g = ([], g)).
Proof.
  intros tv. split; [|split].
  - intros msg index array g. apply callback_other.
  - intros g. apply flatMap_from_passed_through.
  - intros g H. now apply flatMap_from_unrecognized.
Qed.

Lemma unrecognized_entries_filtered_witness :
  reconstruct
    {| tv_messages := [raw "system" "S"; raw "function" "F"];
       tv_router := JObj [("decision", JStr "docs")];
       tv_documents := JArr [JNull] |} 5 = ([], 5).
Proof.
  apply (proj2 (proj2 (unrecognized_entries_filtered _))).
  repeat constructor.
Defined.

(** ** Identifiers of a reconstructed timeline *)

Lemma generated_ids_app l1 l2 :
  generated_ids (l1 ++ l2) = generated_ids l1 ++ generated_ids l2.
Proof. apply flat_map_app. Qed.

Lemma callback_generated_ids tv msg index array g :
  exists n,
    snd (flatMap_callback tv msg index array g) = g + n
    /\ generated_ids (fst (flatMap_callback tv msg index array g)) = seq g n.
Proof.
  destruct (callback_cases tv msg index array g)
    as [[_ E] | [[_ [_ E]] | [[_ [_ E]] | [_ E]]]]; rewrite E.
  - exists 1. split; [cbn; lia | reflexivity].
  - unfold terminal_output.
    destruct (truthy (tv_router tv));
      destruct (truthy (opt_length (tv_documents tv)));
      [exists 2 | exists 1 | exists 1 | exists 0];
      (split; [cbn; lia | reflexivity]).
  - exists 0. split; [cbn; lia | reflexivity].
  - exists 0. split; [cbn; lia | reflexivity].
Qed.

Lemma flatMap_from_generated_ids tv array rest :
  forall index g,
  exists n,
    snd (flatMap_from (flatMap_callback tv) array index rest g) = g + n
    /\ generated_ids
         (fst (flatMap_from (flatMap_callback tv) array index rest g)) =
       seq g n.
Proof.
  induction rest as [|msg rest IH]; intros index g.
  - exists 0. split; [cbn; lia | reflexivity].
  - rewrite flatMap_from_cons. cbn [fst snd].
    destruct (callback_generated_ids tv msg index array g) as [n1 [E1 I1]].
    rewrite E1.
    destruct (IH (S index) (g + n1)) as [n2 [E2 I2]].
    exists (n1 + n2). split; [lia|].
    now rewrite generated_ids_app, I1, I2, seq_app.
Qed.

Lemma ids_drawn_before_app g n l1 l2 :
  ids_drawn_before g l1 ->
  generated_ids l2 = seq g n ->
  ids_drawn_before (g + n) (l1 ++ l2).
Proof.
  intros [Hlt Hnd] E. unfold ids_drawn_before.
  rewrite generated_ids_app, E. split.
  - apply Forall_app. split.
    + eapply Forall_impl; [|exact Hlt]. intros a Ha. simpl in Ha. lia.
    + apply Forall_forall. intros x Hx. apply in_seq in Hx. lia.
  - apply NoDup_app; [exact Hnd | apply seq_NoDup |].
    intros x Hx Hx'. apply in_seq in Hx'.
    rewrite Forall_forall in Hlt. specialize (Hlt x Hx). simpl in Hlt. lia.
Qed.

Lemma reconstruct_ids_drawn tv g :
  ids_drawn_before (snd (reconstruct tv g)) (fst (reconstruct tv g)).
Proof.
  destruct (flatMap_from_generated_ids tv (tv_messages tv)
              (tv_messages tv) 0 g) as [n [E I]].
  unfold reconstruct, flatMap. rewrite E.
  apply (ids_drawn_before_app g n [] _); [|exact I].
  split; constructor.
Qed.

Lemma switchSelectedThread_ids thread s :
  ids_drawn_before (uuid_state (snd (switchSelectedThread thread s)))
    (messages (snd (switchSelectedThread thread s))).
Proof.
  rewrite switchSelectedThread_eq. cbn [snd uuid_state messages].
  destruct (values thread) as [tv|].
  - apply reconstruct_ids_drawn.
  - split; constructor.
Qed.

(** ** C10 *)

Lemma callback_marker_ids tv msg index array g :
  Forall marker_id_rule (fst (flatMap_callback tv msg index array g)).
Proof.
  destruct (callback_cases tv msg index array g)
    as [[_ E] | [[_ [_ E]] | [[_ [_ E]] | [_ E]]]]; rewrite E; cbn [fst].
  - repeat constructor. cbn. eauto.
  - unfold terminal_output.
    destruct (truthy (tv_router tv));
      destruct (truthy (opt_length (tv_documents tv)));
      cbn [app];
      repeat (apply Forall_cons; [cbn; eauto|]); apply Forall_nil.
  - repeat constructor.
  - constructor.
Qed.

Lemma flatMap_from_marker_ids tv array rest :
  forall index g,
    Forall marker_id_rule
      (fst (flatMap_from (flatMap_callback tv) array index rest g)).
Proof.
  induction rest as [|msg rest IH]; intros index g.
  - constructor.
  - rewrite flatMap_from_cons. cbn [fst]. apply Forall_app. split.
    + apply callback_marker_ids.
    + apply IH.
Qed.

Lemma reconstruct_marker_ids tv g :
  Forall marker_id_rule (fst (reconstruct tv g)).
Proof. apply flatMap_from_marker_ids. Qed.

(** C10, on the code: of the four synthetic markers the progress, router
    and selected-documents markers carry a generated identifier, and the
    answer-header marker carries none. For a thread holding one answer
    the timeline is the answer-header marker without identifier
    followed by the answer, and in any reconstructed timeline every
    answer-header marker is without identifier. *)
Theorem answer_header_marker_has_no_id :
  fst (reconstruct single_answer_snapshot 0) =
  [answerHeaderToolMsg;
   AIMessage (spread_msg [("type", JStr "ai"); ("content", JStr "A")])]
  /\ is_marker_of AnswerHeader answerHeaderToolMsg = true
  /\ message_id answerHeaderToolMsg = IdMissing
  /\ (forall u router documents,
         message_id (progressAIMessage u) = IdGenerated u
         /\ message_id (routerMessage u router) = IdGenerated u
         /\ message_id (selectedDocumentsAIMessage u documents) =
            IdGenerated u)
  /\ (forall tv g m,
         In m (fst (reconstruct tv g)) ->
         is_marker_of AnswerHeader m = true ->
         message_id m = IdMissing).
Proof.
  repeat split; try reflexivity.
  intros tv g m Hin Hm.
  pose proof (reconstruct_marker_ids tv g) as H.
  rewrite Forall_forall in H. specialize (H m Hin).
  unfold marker_id_rule in H. unfold is_marker_of in Hm.
  destruct (marker m) as [[k p]|]; [|discriminate].
  destruct k; try discriminate. exact H.
Qed.

Lemma answer_header_marker_has_no_id_witness :
  message_id answerHeaderToolMsg = IdMissing.
Proof.
  apply (proj2 (proj2 (proj2 (proj2 answer_header_marker_has_no_id)))
           single_answer_snapshot 0 answerHeaderToolMsg).
  - left. reflexivity.
  - reflexivity.
Defined.

(** ** streamMessage, path by path *)

Ltac run_steps :=
  cbn; unfold emit; cbn; rewrite <- ?app_assoc; reflexivity.

Lemma streamMessage_no_user userId net tid params s :
  no_user userId = true ->
  streamMessage userId net tid params s =
  (Normal tt, emit (EvToast "Error" "User ID not found") s).
Proof.
  unfold streamMessage. intros ->. reflexivity.
Qed.

Lemma streamMessage_failure userId net tid params s :
  no_user userId = false ->
  chat_call_fails net ->
  streamMessage userId net tid params s =
  (Normal tt,
   {| runId := "";
      isStreaming := false;
      messages := messages s;
      selectedModel := selectedModel s;
      threadId := threadId s;
      uuid_state := uuid_state s;
      log := log s ++
             [EvSetRunId "";
              EvSetIsStreaming true;
              EvFetch chat_url (request_messages params) (selectedModel s);
              EvToast "Error" "Failed to get response from backend.";
              EvSetIsStreaming false] |}).
Proof.
  unfold streamMessage. intros -> Hfail.
  destruct net as [|ok json].
  - run_steps.
  - destruct ok.
    + destruct Hfail as [Hok | ->]; [discriminate|].
      run_steps.
    + run_steps.
Qed.

Lemma streamMessage_success userId response answer tid params s :
  no_user userId = false ->
  prop "answer" response = Some answer ->
  streamMessage userId (FetchResponds true (Some response)) tid params s =
  (Normal tt,
   {| runId := "";
      isStreaming := false;
      messages := messages s
                  ++ [answer_message answer response (uuid_state s)];
      selectedModel := selectedModel s;
      threadId := threadId s;
      uuid_state := S (uuid_state s);
      log := log s ++
             [EvSetRunId "";
              EvSetIsStreaming true;
              EvFetch chat_url (request_messages params) (selectedModel s);
              EvSetMessages
                (messages s
                 ++ [answer_message answer response (uuid_state s)]);
              EvSetIsStreaming false] |}).
Proof.
  unfold streamMessage. intros -> Hanswer.
  cbn. unfold setMessages_with, append_answer, bind, reads, with_uuid.
  cbn. rewrite Hanswer. run_steps.
Qed.

Lemma streamMessage_nullish_response userId response tid params s :
  no_user userId = false ->
  prop "answer" response = None ->
  streamMessage userId (FetchResponds true (Some response)) tid params s =
  (Unmounted,
   {| runId := "";
      isStreaming := true;
      messages := messages s;
      selectedModel := selectedModel s;
      threadId := threadId s;
      uuid_state := uuid_state s;
      log := log s ++
             [EvSetRunId "";
              EvSetIsStreaming true;
              EvFetch chat_url (request_messages params) (selectedModel s);
              EvUpdaterThrew] |}).
Proof.
  unfold streamMessage. intros -> Hanswer.
  cbn. unfold setMessages_with, append_answer, bind, reads, with_uuid.
  cbn. rewrite Hanswer. run_steps.
Qed.

Lemma skipn_prefix {A} (l evs : list A) :
  skipn (List.length l) (l ++ evs) = evs.
Proof.
  rewrite skipn_app, skipn_all, Nat.sub_diag. reflexivity.
Qed.

(** ** C5 *)

(** C5. When [streamMessage] is called while no user identity is
    available, no network call is made, one IdentityMissing
    notification fires and nothing else happens: the timeline is
    unchanged and [isStreaming], false before the call, is false at
    every point of it. *)
Theorem submit_without_identity :
  forall userId net tid params s,
    no_user userId = true ->
    let r := streamMessage userId net tid params s in
    let evs := new_events s (snd r) in
    fst r = Normal tt
    /\ log (snd r) = log s ++ evs
    /\ evs = [EvToast "Error" "User ID not found"]
    /\ filter is_fetch evs = []
    /\ notifications evs = [IdentityMissing]
    /\ messages (snd r) = messages s
    /\ isStreaming (snd r) = isStreaming s
    /\ (isStreaming s = false ->
        Forall (fun b => b = false) (streaming_values (isStreaming s) evs)).
Proof.
  intros userId net tid params s Hu r evs. subst r evs.
  rewrite (streamMessage_no_user _ _ _ _ _ Hu).
  unfold new_events. cbn [fst snd emit log]. rewrite skipn_prefix.
  repeat split.
  intros ->. repeat constructor.
Qed.

Lemma submit_without_identity_witness :
  filter is_fetch
    (new_events asking_state
       (snd (streamMessage None (FetchResponds true (Some (JStr "hello")))
               "t1" asking_input asking_state))) = []
  /\ Forall (fun b => b = false)
       (streaming_values (isStreaming asking_state)
          (new_events asking_state
             (snd (streamMessage None
                     (FetchResponds true (Some (JStr "hello")))
                     "t1" asking_input asking_state)))).
Proof.
  pose proof (submit_without_identity None
                (FetchResponds true (Some (JStr "hello")))
                "t1" asking_input asking_state eq_refl) as H.
  cbv zeta in H.
  destruct H as [_ [_ [_ [Hf [_ [_ [_ Hs]]]]]]].
  split; [exact Hf | exact (Hs eq_refl)].
Defined.

(** ** C4 *)

(** C4. With a user identity present, when the chat call of
    [streamMessage] rejects or returns a response that is not a success,
    [streamMessage] completes normally, the timeline is what it was
    before the call and no timeline setter ran at any point,
    [isStreaming] is false, and exactly one BackendUnavailable
    notification fired, after the one network call. *)
Theorem failed_chat_call_keeps_timeline :
  forall userId net tid params s,
    no_user userId = false ->
    chat_call_fails net ->
    let r := streamMessage userId net tid params s in
    let evs := new_events s (snd r) in
    fst r = Normal tt
    /\ log (snd r) = log s ++ evs
    /\ messages (snd r) = messages s
    /\ filter is_set_messages evs = []
    /\ isStreaming (snd r) = false
    /\ notifications evs = [BackendUnavailable]
    /\ evs = [EvSetRunId "";
              EvSetIsStreaming true;
              EvFetch chat_url (request_messages params) (selectedModel s);
              EvToast "Error" "Failed to get response from backend.";
              EvSetIsStreaming false].
Proof.
  intros userId net tid params s Hu Hfail r evs. subst r evs.
  rewrite (streamMessage_failure _ _ _ _ _ Hu Hfail).
  unfold new_events. cbn [fst snd log]. rewrite skipn_prefix.
  repeat split.
Qed.

Lemma failed_chat_call_keeps_timeline_witness :
  messages (snd (streamMessage (Some "user-1") (FetchResponds false None)
                   "t1" asking_input asking_state)) =
  messages asking_state
  /\ notifications
       (new_events asking_state
          (snd (streamMessage (Some "user-1") (FetchResponds false None)
                  "t1" asking_input asking_state))) = [BackendUnavailable].
Proof.
  assert (Hfail : chat_call_fails (FetchResponds false None))
    by (left; reflexivity).
  pose proof (failed_chat_call_keeps_timeline (Some "user-1")
                (FetchResponds false None) "t1" asking_input asking_state
                eq_refl Hfail) as H.
  cbv zeta in H.
  destruct H as [_ [_ [Hm [_ [_ [Hn _]]]]]].
  split; [exact Hm | exact Hn].
Defined.

(** ** C6 *)

Lemma size_get k (o : Obj) :
  size (get k o) <= list_sum (map (fun kv => size (snd kv)) o).
Proof.
  induction o as [|[k' v] o IH]; simpl.
  - lia.
  - destruct (String.eqb k k'); lia.
Qed.

Lemma get_is_not_the_record k (o : Obj) : get k o <> JObj o.
Proof.
  intros E. pose proof (size_get k o) as H.
  rewrite E in H. simpl in H. lia.
Qed.

(** [response.answer || response] is the whole response exactly when
    the [answer] property is falsy. *)
Lemma or_else_body_iff response answer :
  prop "answer" response = Some answer ->
  (or_else answer response = response <-> truthy answer = false).
Proof.
  intros Hprop. unfold or_else. split.
  - destruct (truthy answer) eqn:Ht; [|reflexivity].
    intros E. subst answer.
    destruct response; simpl in Hprop; try discriminate;
      try (injection Hprop as E; discriminate).
    injection Hprop as E. now apply get_is_not_the_record in E.
  - now intros ->.
Qed.

(** C6, as stated, fails: for the response [{answer: ""}] the field is
    present, yet the content of the appended message is the whole
    response body and not the empty answer. *)
Lemma empty_answer_replaced_by_body :
  prop "answer" (JObj [("answer", JStr "")]) = Some (JStr "")
  /\ messages
       (snd (streamMessage (Some "user-1")
               (FetchResponds true (Some (JObj [("answer", JStr "")])))
               "t1" asking_input asking_state)) =
     messages asking_state
     ++ [AIMessage {| inherited := [];
                      content := JObj [("answer", JStr "")];
                      id := Some (uuid_draw 0);
                      tool_calls := [] |}]
  /\ JObj [("answer", JStr "")] <> JStr "".
Proof.
  repeat split. discriminate.
Qed.

(** C6, amended. For every backend response whose [answer] property can
    be read, when [streamMessage] succeeds exactly one new assistant
    message is appended to the timeline, with a freshly generated
    identifier that no entry of the timeline carries; its content is the
    [answer] field of the response when that field is present and
    truthy, and it is the entire response body when the [answer] field
    is absent. *)
Theorem answer_appended_on_success :
  forall userId response answer tid params s,
    no_user userId = false ->
    prop "answer" response = Some answer ->
    let r := streamMessage userId (FetchResponds true (Some response))
               tid params s in
    let m := answer_message answer response (uuid_state s) in
    fst r = Normal tt
    /\ messages (snd r) = messages s ++ [m]
    /\ notifications (new_events s (snd r)) = []
    /\ isStreaming (snd r) = false
    /\ entry_of m = Assistant (content (fields_of m))
    /\ (truthy answer = true -> content (fields_of m) = answer)
    /\ (answer = JUndefined -> content (fields_of m) = response)
    /\ message_id m = IdGenerated (uuid_draw (uuid_state s))
    /\ (ids_drawn_before (uuid_state s) (messages s) ->
        ~ In (uuid_state s) (generated_ids (messages s))
        /\ ids_drawn_before (uuid_state (snd r)) (messages (snd r))).
Proof.
  intros userId response answer tid params s Hu Hprop r m. subst r m.
  rewrite (streamMessage_success _ _ _ _ _ _ Hu Hprop).
  unfold new_events. cbn [fst snd log messages uuid_state isStreaming].
  rewrite skipn_prefix.
  split; [reflexivity|]. split; [reflexivity|]. split; [reflexivity|].
  split; [reflexivity|]. split; [reflexivity|].
  split.
  { intros Ht. cbn. unfold or_else. now rewrite Ht. }
  split.
  { intros ->. reflexivity. }
  split; [reflexivity|].
  intros Hids. split.
  - destruct Hids as [Hlt _]. intros Hin.
    rewrite Forall_forall in Hlt. specialize (Hlt _ Hin). simpl in Hlt. lia.
  - replace (S (uuid_state s)) with (uuid_state s + 1) by lia.
    apply ids_drawn_before_app; [exact Hids | reflexivity].
Qed.

Lemma answer_appended_on_success_witness :
  messages
    (snd (streamMessage (Some "user-1")
            (FetchResponds true (Some (JObj [("answer", JStr "hello")])))
            "t1" asking_input asking_state)) =
  messages asking_state
  ++ [answer_message (JStr "hello") (JObj [("answer", JStr "hello")]) 0]
  /\ content
       (fields_of
          (answer_message (JStr "hello")
             (JObj [("answer", JStr "hello")]) 0)) = JStr "hello"
  /\ ~ In 0 (generated_ids (messages asking_state)).
Proof.
  assert (Hids : ids_drawn_before (uuid_state asking_state)
                   (messages asking_state))
    by (split; constructor).
  pose proof (answer_appended_on_success (Some "user-1")
                (JObj [("answer", JStr "hello")]) (JStr "hello")
                "t1" asking_input asking_state eq_refl eq_refl) as H.
  cbv zeta in H.
  destruct H as [_ [Hm [_ [_ [_ [Hc [_ [_ Hfresh]]]]]]]].
  split; [exact Hm|]. split; [exact (Hc eq_refl)|].
  exact (proj1 (Hfresh Hids)).
Defined.

(** ** C9 *)

(** C9. [switchSelectedThread] first sets the current thread identifier,
    whatever the thread holds. For a thread without stored values it
    then sets the timeline to the empty list and returns; otherwise it
    sets the timeline to the reconstruction of the stored values, which
    does not depend on the timeline shown before. Nothing else is
    touched. *)
Theorem switch_sets_thread_then_replaces_timeline :
  forall thread s,
    let r := switchSelectedThread thread s in
    let timeline :=
      match values thread with
      | None => []
      | Some tv => fst (reconstruct tv (uuid_state s))
      end in
    fst r = Normal tt
    /\ threadId (snd r) = Some (thread_id thread)
    /\ new_events s (snd r) =
       [EvSetThreadId (thread_id thread); EvSetMessages timeline]
    /\ log (snd r) = log s ++ new_events s (snd r)
    /\ messages (snd r) = timeline
    /\ (forall previous,
           messages
             (snd (switchSelectedThread thread
                     {| runId := runId s; isStreaming := isStreaming s;
                        messages := previous;
                        selectedModel := selectedModel s;
                        threadId := threadId s;
                        uuid_state := uuid_state s; log := log s |})) =
           messages (snd r))
    /\ runId (snd r) = runId s
    /\ isStreaming (snd r) = isStreaming s
    /\ selectedModel (snd r) = selectedModel s.
Proof.
  intros thread s r timeline. subst r timeline.
  rewrite switchSelectedThread_eq.
  unfold new_events. cbn [fst snd log messages threadId]. rewrite skipn_prefix.
  repeat split.
  intros previous. now rewrite switchSelectedThread_eq.
Qed.

(** * Further properties *)

(** ** Strings *)

Lemma length_append (a b : string) :
  String.length (a ++ b)%string = String.length a + String.length b.
Proof.
  induction a as [|c a IH]; simpl; [reflexivity | now rewrite IH].
Qed.

Lemma append_assoc (a b c : string) :
  ((a ++ b) ++ c = a ++ b ++ c)%string.
Proof.
  induction a as [|x a IH]; simpl; [reflexivity | now rewrite IH].
Qed.

Lemma append_nil_r (a : string) : (a ++ "")%string = a.
Proof.
  induction a as [|x a IH]; simpl; [reflexivity | now rewrite IH].
Qed.

(** ** The citation pattern *)

Lemma span_digits_append s :
  s = (fst (span_digits s) ++ snd (span_digits s))%string.
Proof.
  induction s as [|c s IH]; cbn [span_digits]; [reflexivity|].
  destruct (is_digit c); [|reflexivity].
  destruct (span_digits s) as [ds rest]. cbn [fst snd append] in *.
  now rewrite <- IH.
Qed.

Lemma span_digits_run number rest :
  all_digits number = true ->
  starts_with_digit rest = false ->
  span_digits (number ++ rest) = (number, rest).
Proof.
  intros Hd Hr. induction number as [|c number IH];
    cbn [append span_digits all_digits] in *.
  - destruct rest as [|c rest]; [reflexivity|].
    cbn [starts_with_digit] in Hr. cbn [span_digits]. now rewrite Hr.
  - apply andb_true_iff in Hd. destruct Hd as [Hc Hd].
    rewrite Hc, (IH Hd). reflexivity.
Qed.

Lemma span_digits_before s tail :
  starts_with_digit tail = false ->
  span_digits (s ++ tail) =
  (fst (span_digits s), (snd (span_digits s) ++ tail)%string).
Proof.
  intros Ht. induction s as [|c s IH]; cbn [append span_digits fst snd].
  - destruct tail as [|c tail]; [reflexivity|].
    cbn [starts_with_digit] in Ht. cbn [span_digits]. now rewrite Ht.
  - destruct (is_digit c); [|reflexivity].
    rewrite IH. destruct (span_digits s) as [ds rest]. reflexivity.
Qed.

Lemma ascii_eq_open_bracket (c : ascii) {A} (x y : A) :
  c <> "["%char ->
  match c with "["%char => x | _ => y end = y.
Proof.
  intros H. destruct c as [[] [] [] [] [] [] [] []]; try reflexivity.
  now contradiction H.
Qed.

Lemma ascii_eq_close_bracket (c : ascii) {A} (x y : A) :
  c <> "]"%char ->
  match c with "]"%char => x | _ => y end = y.
Proof.
  intros H. destruct c as [[] [] [] [] [] [] [] []]; try reflexivity.
  now contradiction H.
Qed.

Lemma match_citation_text s number after :
  match_citation s = Some (number, after) ->
  s = String "[" (number ++ String "]" after)
  /\ number <> EmptyString.
Proof.
  destruct s as [|c s1]; [discriminate|]. unfold match_citation.
  destruct (ascii_dec c "[") as [->|Hc].
  2:{ rewrite (ascii_eq_open_bracket c _ _ Hc). discriminate. }
  pose proof (span_digits_append s1) as E.
  destruct (span_digits s1) as [ds rest]. simpl in E.
  destruct ds as [|d ds]; [discriminate|].
  destruct rest as [|c rest]; [discriminate|].
  destruct (ascii_dec c "]") as [->|Hc].
  2:{ rewrite (ascii_eq_close_bracket c _ _ Hc). discriminate. }
  intros H. injection H as <- <-. split; [now rewrite E | discriminate].
Qed.

Lemma match_citation_found number post :
  all_digits number = true ->
  number <> EmptyString ->
  match_citation (String "[" (number ++ String "]" post)) =
  Some (number, post).
Proof.
  intros Hd Hne. unfold match_citation.
  rewrite (span_digits_run number (String "]" post) Hd eq_refl).
  destruct number as [|d ds]; [now contradiction Hne | reflexivity].
Qed.

Lemma match_citation_before c s tail :
  match_citation (String c s ++ String "[" tail) =
  match match_citation (String c s) with
  | Some (number, after) => Some (number, (after ++ String "[" tail)%string)
  | None => None
  end.
Proof.
  unfold match_citation. cbn [append].
  destruct (ascii_dec c "[") as [->|Hc].
  2:{ now rewrite !(ascii_eq_open_bracket c _ _ Hc). }
  rewrite (span_digits_before s (String "[" tail) eq_refl).
  destruct (span_digits s) as [ds rest]. cbn [fst snd].
  destruct ds as [|d ds]; [reflexivity|].
  destruct rest as [|c rest]; [reflexivity|].
  cbn [append].
  destruct (ascii_dec c "]") as [->|Hc]; [reflexivity|].
  now rewrite !(ascii_eq_close_bracket c _ _ Hc).
Qed.

Lemma replace_citations_step replacer text :
  replace_citations replacer text =
  match text with
  | EmptyString => EmptyString
  | String c rest =>
      match match_citation text with
      | Some (number, after) =>
          (replacer (String "[" (number ++ "]")) number
           ++ replace_citations replacer after)%string
      | None => String c (replace_citations replacer rest)
      end
  end.
Proof.
  funelim (replace_citations replacer text).
  - reflexivity.
  - now rewrite E.
  - now rewrite E.
Qed.

Lemma replace_citations_split replacer a tail :
  replace_citations replacer (a ++ String "[" tail) =
  (replace_citations replacer a
   ++ replace_citations replacer (String "[" tail))%string.
Proof.
  funelim (replace_citations replacer a).
  - reflexivity.
  - rewrite (replace_citations_step replacer (String c rest ++ String "[" tail)).
    rewrite match_citation_before, E. cbn [append].
    rewrite H. now rewrite append_assoc.
  - rewrite (replace_citations_step replacer (String c rest ++ String "[" tail)).
    rewrite match_citation_before, E. cbn [append].
    now rewrite H.
Qed.

Lemma replace_citations_citation replacer number post :
  all_digits number = true ->
  number <> EmptyString ->
  replace_citations replacer (String "[" (number ++ String "]" post)) =
  (replacer (String "[" (number ++ "]")) number
   ++ replace_citations replacer post)%string.
Proof.
  intros Hd Hne. rewrite replace_citations_step.
  now rewrite (match_citation_found number post Hd Hne).
Qed.

Lemma replace_citations_same replacer text :
  (forall number,
      replacer (String "[" (number ++ "]")) number =
      String "[" (number ++ "]")) ->
  replace_citations replacer text = text.
Proof.
  intros Hsame. funelim (replace_citations replacer text).
  - reflexivity.
  - rewrite Hsame, (H Hsame).
    destruct (match_citation_text _ _ _ E) as [-> _].
    cbn [append]. now rewrite append_assoc.
  - now rewrite (H Hsame).
Qed.

Lemma replace_citations_no_bracket replacer text :
  occurs "[" text = false ->
  replace_citations replacer text = text.
Proof.
  funelim (replace_citations replacer text); intros Hocc.
  - reflexivity.
  - destruct (match_citation_text _ _ _ E) as [Ht _].
    injection Ht as -> _. discriminate.
  - cbn [occurs] in Hocc. apply orb_false_iff in Hocc.
    destruct Hocc as [_ Hocc]. now rewrite (H Hocc).
Qed.

Lemma replace_citations_length replacer text :
  (forall number,
      String.length (String "[" (number ++ "]"))
      <= String.length (replacer (String "[" (number ++ "]")) number)) ->
  String.length text <= String.length (replace_citations replacer text).
Proof.
  intros Hlen. funelim (replace_citations replacer text).
  - apply le_n.
  - destruct (match_citation_text _ _ _ E) as [-> _].
    specialize (H Hlen).
    specialize (Hlen number).
    rewrite length_append. cbn [String.length] in *.
    rewrite !length_append in *. cbn [String.length] in *. lia.
  - specialize (H Hlen). cbn [String.length]. lia.
Qed.

(** ** addDocumentLinks *)

Section DocumentLinksFacts.

Variable text_of : JVal -> string.

Lemma link_replacer_kept documents number :
  (N.of_nat (List.length documents) <= parseInt number)%N
  \/ truthy (linked_source
               (nth (N.to_nat (parseInt number)) documents JUndefined))
     = false ->
  link_replacer text_of documents (String "[" (number ++ "]")) number =
  String "[" (number ++ "]").
Proof.
  unfold link_replacer. intros [Hrange | Hsource].
  - apply N.ltb_ge in Hrange. now rewrite Hrange.
  - rewrite Hsource. now destruct (N.ltb _ _).
Qed.

Lemma link_replacer_linked documents number :
  (parseInt number < N.of_nat (List.length documents))%N ->
  truthy (linked_source
            (nth (N.to_nat (parseInt number)) documents JUndefined))
  = true ->
  link_replacer text_of documents (String "[" (number ++ "]")) number =
  ("[[" ++ number ++ "]]("
   ++ template_text text_of
        (linked_source
           (nth (N.to_nat (parseInt number)) documents JUndefined))
   ++ ")")%string.
Proof.
  unfold link_replacer. intros Hrange Hsource.
  apply N.ltb_lt in Hrange. now rewrite Hrange, Hsource.
Qed.

(** X1. When no document has a truthy [metadata.source], in particular when
    there is no document at all, every text comes back unchanged. *)
Theorem links_need_a_source :
  forall text documents,
    Forall (fun d => truthy (linked_source d) = false) documents ->
    addDocumentLinks text_of text documents = text.
Proof.
  intros text documents Hnone. unfold addDocumentLinks.
  apply replace_citations_same. intros number.
  apply link_replacer_kept.
  destruct (N.ltb_spec (parseInt number) (N.of_nat (List.length documents)))
    as [Hlt | Hge]; [right | now left].
  rewrite Forall_forall in Hnone. apply Hnone, nth_In. lia.
Qed.

(** X2. A text without an opening bracket comes back unchanged, whatever
    the documents. *)
Theorem links_need_a_bracket :
  forall text documents,
    occurs "[" text = false ->
    addDocumentLinks text_of text documents = text.
Proof.
  intros text documents H. now apply replace_citations_no_bracket.
Qed.

(** X3. A citation [[number]] whose number is the position of a document
    with a truthy [metadata.source] becomes the link
    [[[number]](source)], with the digits as written; the text before
    and the text after it are linked on their own. *)
Theorem citation_becomes_link :
  forall before number after documents source,
    all_digits number = true ->
    number <> EmptyString ->
    (parseInt number < N.of_nat (List.length documents))%N ->
    linked_source (nth (N.to_nat (parseInt number)) documents JUndefined)
    = source ->
    truthy source = true ->
    addDocumentLinks text_of
      (before ++ String "[" (number ++ String "]" after)) documents =
    (addDocumentLinks text_of before documents
     ++ "[[" ++ number ++ "]](" ++ template_text text_of source ++ ")"
     ++ addDocumentLinks text_of after documents)%string.
Proof.
  intros before number after documents source Hd Hne Hrange <- Hsource.
  unfold addDocumentLinks.
  rewrite replace_citations_split, (replace_citations_citation _ _ _ Hd Hne).
  rewrite (link_replacer_linked _ _ Hrange Hsource).
  f_equal. cbn [append]. rewrite !append_assoc. cbn [append].
  rewrite !append_assoc. reflexivity.
Qed.

(** X4. A citation whose number is not the position of a document, or
    whose document has no truthy [metadata.source], stays as written;
    the text before and the text after it are linked on their own. *)
Theorem citation_without_document_kept :
  forall before number after documents,
    all_digits number = true ->
    number <> EmptyString ->
    (N.of_nat (List.length documents) <= parseInt number)%N
    \/ truthy (linked_source
                 (nth (N.to_nat (parseInt number)) documents JUndefined))
       = false ->
    addDocumentLinks text_of
      (before ++ String "[" (number ++ String "]" after)) documents =
    (addDocumentLinks text_of before documents
     ++ String "[" (number ++ String "]"
                      (addDocumentLinks text_of after documents)))%string.
Proof.
  intros before number after documents Hd Hne Hkept.
  unfold addDocumentLinks.
  rewrite replace_citations_split, (replace_citations_citation _ _ _ Hd Hne).
  rewrite (link_replacer_kept _ _ Hkept).
  f_equal. cbn [append]. f_equal. now rewrite append_assoc.
Qed.

(** X5. Linking distributes over a cut made in front of an opening
    bracket: no citation straddles it. *)
Theorem links_split_at_bracket :
  forall before tail documents,
    addDocumentLinks text_of (before ++ String "[" tail) documents =
    (addDocumentLinks text_of before documents
     ++ addDocumentLinks text_of (String "[" tail) documents)%string.
Proof.
  intros before tail documents. apply replace_citations_split.
Qed.

(** X6. Linking never makes a text shorter. *)
Theorem links_never_shorten :
  forall text documents,
    String.length text
    <= String.length (addDocumentLinks text_of text documents).
Proof.
  intros text documents. apply replace_citations_length.
  intros number. unfold link_replacer.
  destruct (N.ltb _ _); [|apply le_n].
  destruct (truthy _); [|apply le_n].
  cbn [append String.length]. rewrite !length_append.
  cbn [String.length]. lia.
Qed.

End DocumentLinksFacts.

Lemma links_need_a_source_example :
  addDocumentLinks (fun _ => "[object Object]") "see [0] and [1]"
    [JObj [("metadata", JObj [("title", JStr "untitled")])]; JNull] =
  "see [0] and [1]".
Proof.
  apply (links_need_a_source (fun _ => "[object Object]")).
  repeat constructor.
Defined.

Lemma links_need_a_bracket_example :
  addDocumentLinks (fun _ => "[object Object]") "step 1] done"
    example_documents = "step 1] done".
Proof.
  apply (links_need_a_bracket (fun _ => "[object Object]")).
  reflexivity.
Defined.

Lemma citation_becomes_link_example :
  addDocumentLinks (fun _ => "[object Object]")
    ("as shown in " ++ String "[" ("00" ++ String "]" " and [1]"))
    example_documents =
  (addDocumentLinks (fun _ => "[object Object]") "as shown in "
     example_documents
   ++ "[[" ++ "00" ++ "]](" ++ "https://a.example/doc" ++ ")"
   ++ addDocumentLinks (fun _ => "[object Object]") " and [1]"
        example_documents)%string.
Proof.
  apply (citation_becomes_link (fun _ => "[object Object]")
           "as shown in " "00" " and [1]" example_documents
           (JStr "https://a.example/doc")).
  - reflexivity.
  - discriminate.
  - reflexivity.
  - reflexivity.
  - reflexivity.
Defined.

Lemma citation_without_document_kept_example :
  addDocumentLinks (fun _ => "[object Object]")
    ("see " ++ String "[" ("7" ++ String "]" "."))
    example_documents =
  (addDocumentLinks (fun _ => "[object Object]") "see " example_documents
   ++ String "[" ("7" ++ String "]"
                    (addDocumentLinks (fun _ => "[object Object]") "."
                       example_documents)))%string.
Proof.
  apply (citation_without_document_kept (fun _ => "[object Object]")
           "see " "7" "." example_documents).
  - reflexivity.
  - discriminate.
  - left. discriminate.
Defined.

Example addDocumentLinks_sample :
  addDocumentLinks (fun _ => "[object Object]")
    "a [0], b [1], c [2], d [x], e [[0]]" example_documents =
  "a [[0]](https://a.example/doc), b [1], c [2], d [x], e [[[0]](https://a.example/doc)]".
Proof. reflexivity. Qed.

(** ** The reconstructed timeline *)

Lemma typed_entry_passed t msg :
  is_type t msg = true ->
  passed (HumanMessage (spread_msg msg)) = true
  /\ passed (AIMessage (spread_msg msg)) = true.
Proof.
  destruct msg; [discriminate | now split].
Qed.

Lemma built_not_passed built :
  Forall (fun m => shape m = marker m /\ is_marker m = true
                   /\ inherited (fields_of m) = []) built ->
  filter passed built = []
  /\ filter (fun m => negb (is_shaped m)) built = []
  /\ Forall (fun m => passed m = false -> is_marker m = true) built.
Proof.
  induction 1 as [|m built [Hs [Hm Hi]] _ [IH1 [IH2 IH3]]];
    [repeat split; constructor|].
  cbn [filter]. unfold passed at 1. rewrite Hi.
  assert (Hshaped : is_shaped m = true)
    by (unfold is_shaped, is_marker in *; now rewrite Hs).
  rewrite Hshaped. cbn [negb]. repeat split; try assumption.
  now constructor.
Qed.

Lemma callback_passed tv msg index array g :
  filter passed (fst (flatMap_callback tv msg index array g)) =
  (if recognized msg then [pass_through msg] else [])
  /\ Forall (fun m => passed m = false -> is_marker m = true)
       (fst (flatMap_callback tv msg index array g))
  /\ filter (fun m => negb (is_shaped m))
       (fst (flatMap_callback tv msg index array g)) =
     (if recognized msg && negb (raw_shaped msg)
      then [pass_through msg] else []).
Proof.
  destruct (callback_cases tv msg index array g)
    as [[H E] | [[H [L E]] | [[H [L E]] | [H E]]]]; rewrite E; cbn [fst].
  - destruct (typed_entry_passed _ _ H) as [Hp _].
    unfold recognized, raw_shaped, pass_through.
    rewrite H, (human_is_not_ai _ H). cbn [filter orb andb negb].
    rewrite Hp. split; [reflexivity|]. split; [|reflexivity].
    constructor; [congruence|]. constructor; [reflexivity | constructor].
  - destruct (typed_entry_passed _ _ H) as [_ Hp].
    destruct (terminal_output_parts tv msg g) as [built [-> [Hb _]]].
    destruct (built_not_passed built Hb) as [F1 [F2 F3]].
    unfold recognized, raw_shaped, pass_through.
    rewrite H, (ai_is_not_human _ H). cbn [orb andb].
    rewrite !filter_app, F1, F2. cbn [filter app]. rewrite Hp.
    split; [reflexivity|]. split.
    + apply Forall_app. split; [exact F3|].
      constructor; [congruence | constructor].
    + now destruct (is_shaped (AIMessage (spread_msg msg))).
  - destruct (typed_entry_passed _ _ H) as [_ Hp].
    unfold recognized, raw_shaped, pass_through.
    rewrite H, (ai_is_not_human _ H). cbn [orb andb filter]. rewrite Hp.
    split; [reflexivity|]. split.
    + constructor; [congruence | constructor].
    + now destruct (is_shaped (AIMessage (spread_msg msg))).
  - rewrite H. split; [reflexivity|]. split; [constructor | reflexivity].
Qed.

Lemma flatMap_from_passed tv array rest :
  forall index g,
    filter passed
      (fst (flatMap_from (flatMap_callback tv) array index rest g)) =
    map pass_through (filter recognized rest)
    /\ Forall (fun m => passed m = false -> is_marker m = true)
         (fst (flatMap_from (flatMap_callback tv) array index rest g))
    /\ filter (fun m => negb (is_shaped m))
         (fst (flatMap_from (flatMap_callback tv) array index rest g)) =
       map pass_through
         (filter (fun msg => recognized msg && negb (raw_shaped msg)) rest).
Proof.
  induction rest as [|msg rest IH]; intros index g.
  - repeat split. constructor.
  - rewrite flatMap_from_cons. cbn [fst filter].
    destruct (callback_passed tv msg index array g) as [E1 [E2 E3]].
    destruct (IH (S index) (snd (flatMap_callback tv msg index array g)))
      as [I1 [I2 I3]].
    rewrite !filter_app, E1, E3, I1, I3. repeat split.
    + now destruct (recognized msg).
    + apply Forall_app. now split.
    + now destruct (recognized msg && negb (raw_shaped msg)).
Qed.

Lemma source_of_pass_through msg : source_of (pass_through msg) = msg.
Proof. unfold pass_through. now destruct (is_type "human" msg). Qed.

(** X13. Leaving aside the markers the callback builds, the timeline is
    the human and ai entries of the raw list passed through, all of
    them, once each and in the order of the raw list: a human entry as
    a human message, an ai entry as an assistant message, each with the
    fields and the content of its raw entry. Every other entry is a
    marker built by the callback. The entries that do not have the
    shape of a marker are the human entries and the ai entries that
    were not stored in the shape of a marker. *)
Theorem timeline_keeps_turns_in_order :
  forall tv g,
    filter passed (fst (reconstruct tv g)) =
    map pass_through (filter recognized (tv_messages tv))
    /\ map source_of (filter passed (fst (reconstruct tv g))) =
       filter recognized (tv_messages tv)
    /\ Forall (fun m => passed m = false -> is_marker m = true)
         (fst (reconstruct tv g))
    /\ filter (fun m => negb (is_shaped m)) (fst (reconstruct tv g)) =
       map pass_through
         (filter (fun msg => recognized msg && negb (raw_shaped msg))
            (tv_messages tv)).
Proof.
  intros tv g.
  destruct (flatMap_from_passed tv (tv_messages tv) (tv_messages tv) 0 g)
    as [H1 [H2 H3]].
  unfold reconstruct, flatMap. rewrite H1.
  split; [reflexivity|]. split; [|split; assumption].
  rewrite map_map. rewrite (map_ext _ (fun x => x) source_of_pass_through).
  apply map_id.
Qed.

Lemma callback_marker_count tv k msg index array g :
  count_markers k (fst (flatMap_callback tv msg index array g)) =
  (if is_type "human" msg then markers_per_human k else 0)
  + (if is_type "ai" msg && isLastAiMessage index array
     then markers_per_terminal tv k else 0).
Proof.
  destruct (callback_cases tv msg index array g)
    as [[H E] | [[H [L E]] | [[H [L E]] | [H E]]]]; rewrite E; cbn [fst].
  - rewrite H, (human_is_not_ai _ H). now destruct k.
  - rewrite H, L, (ai_is_not_human _ H). unfold terminal_output. cbn [fst].
    destruct k; cbn [markers_per_terminal];
      destruct (truthy (tv_router tv));
      destruct (truthy (opt_length (tv_documents tv))); reflexivity.
  - rewrite H, L, (ai_is_not_human _ H). now destruct k.
  - unfold recognized in H. apply orb_false_iff in H.
    destruct H as [-> ->]. reflexivity.
Qed.

Lemma flatMap_from_marker_count tv k array rest :
  forall index g,
    count_markers k
      (fst (flatMap_from (flatMap_callback tv) array index rest g)) =
    markers_per_human k * count_type "human" rest
    + markers_per_terminal tv k * terminal_count_from array index rest.
Proof.
  induction rest as [|msg rest IH]; intros index g.
  - cbn. lia.
  - rewrite flatMap_from_cons. cbn [fst].
    rewrite count_markers_app, callback_marker_count, IH.
    unfold count_type. cbn [filter terminal_count_from].
    destruct (is_type "human" msg);
      destruct (is_type "ai" msg && isLastAiMessage index array);
      cbn [List.length]; lia.
Qed.

Lemma built_marker_counts tv g k :
  count_markers k (fst (reconstruct tv g)) =
  markers_per_human k * count_type "human" (tv_messages tv)
  + markers_per_terminal tv k * terminal_count (tv_messages tv).
Proof.
  unfold reconstruct, flatMap.
  now rewrite flatMap_from_marker_count, terminal_count_from_start.
Qed.

(** X14. The number of marker-shaped entries of each kind: one progress
    marker per human entry; per [ai] entry that is last in the raw list
    or directly followed by a human entry, one answer-header marker,
    one router marker when [router] is truthy and one
    selected-documents marker when [documents?.length] is truthy; and
    one more for each [ai] entry stored in the shape of a marker of
    that kind. *)
Theorem marker_counts :
  forall tv g k,
    count_shaped k (fst (reconstruct tv g)) =
    markers_per_human k * count_type "human" (tv_messages tv)
    + markers_per_terminal tv k * terminal_count (tv_messages tv)
    + stored_shaped k (tv_messages tv).
Proof.
  intros tv g k. rewrite <- built_marker_counts with (g := g).
  apply flatMap_from_shaped_count.
Qed.

Lemma callback_payloads tv msg index array g :
  Forall (fun m => forall k p, marker m = Some (k, p) ->
                               p = marker_payload tv k)
    (fst (flatMap_callback tv msg index array g)).
Proof.
  assert (Hspread : forall m,
             (forall k p, marker (AIMessage (spread_msg m)) = Some (k, p) ->
                          p = marker_payload tv k)) by discriminate.
  destruct (callback_cases tv msg index array g)
    as [[_ E] | [[_ [_ E]] | [[_ [_ E]] | [_ E]]]]; rewrite E; cbn [fst].
  - constructor; [discriminate|]. constructor; [|constructor].
    intros k p H. cbn in H. now injection H as <- <-.
  - unfold terminal_output. cbn [fst].
    destruct (truthy (tv_router tv));
      destruct (truthy (opt_length (tv_documents tv))); cbn [app];
      repeat (apply Forall_cons;
              [first [apply Hspread
                     | intros k p H; cbn in H; now injection H as <- <-]|]);
      apply Forall_nil.
  - constructor; [apply Hspread | constructor].
  - constructor.
Qed.

Lemma flatMap_from_payloads tv array rest :
  forall index g,
    Forall (fun m => forall k p, marker m = Some (k, p) ->
                                 p = marker_payload tv k)
      (fst (flatMap_from (flatMap_callback tv) array index rest g)).
Proof.
  induction rest as [|msg rest IH]; intros index g.
  - constructor.
  - rewrite flatMap_from_cons. cbn [fst]. apply Forall_app. split.
    + apply callback_payloads.
    + apply IH.
Qed.

(** X15. Every marker the callback builds carries the payload of its
    kind: [{step: 4}] for a progress marker, the [router] of the thread
    for a router marker, [{documents}] of the thread for a
    selected-documents marker, the empty record for an answer-header
    marker; the markers of every exchange carry the same thread-level
    router and documents. A marker-shaped entry of the timeline is
    such a marker, or an [ai] entry stored in that shape and passed
    through with the payload it was stored with. *)
Theorem markers_carry_thread_payload :
  forall tv g m k p,
    In m (fst (reconstruct tv g)) ->
    shape m = Some (k, p) ->
    (marker m = Some (k, p) /\ p = marker_payload tv k)
    \/ (exists msg,
           In msg (tv_messages tv) /\ raw_shaped_of k msg = true
           /\ m = AIMessage (spread_msg msg)).
Proof.
  intros tv g m k p Hin Hshape.
  pose proof (reconstruct_built_or_stored tv g) as Hall.
  rewrite Forall_forall in Hall.
  destruct (Hall m Hin) as [[Hs _] | [[Hs _] | [msg [Hmsg [Hai ->]]]]].
  - left. rewrite Hs in Hshape. split; [exact Hshape|].
    pose proof (flatMap_from_payloads tv (tv_messages tv) (tv_messages tv)
                  0 g) as H.
    rewrite Forall_forall in H. exact (H m Hin k p Hshape).
  - congruence.
  - right. exists msg. repeat split; [exact Hmsg|].
    rewrite <- (shaped_of_spread k msg Hai). unfold is_shaped_of.
    rewrite Hshape. now destruct k.
Qed.

Lemma markers_carry_thread_payload_example :
  (marker (routerMessage (uuid_draw 1) (tv_router scenario_snapshot)) =
   Some (Router, JObj [("decision", JStr "docs")])
   /\ JObj [("decision", JStr "docs")] =
      marker_payload scenario_snapshot Router)
  \/ (exists msg,
         In msg (tv_messages scenario_snapshot)
         /\ raw_shaped_of Router msg = true
         /\ routerMessage (uuid_draw 1) (tv_router scenario_snapshot) =
            AIMessage (spread_msg msg)).
Proof.
  apply (markers_carry_thread_payload scenario_snapshot 0
           (routerMessage (uuid_draw 1) (tv_router scenario_snapshot))).
  - right. right. left. reflexivity.
  - reflexivity.
Defined.

Lemma generated_ids_length_app l1 l2 :
  List.length (generated_ids (l1 ++ l2)) =
  List.length (generated_ids l1) + List.length (generated_ids l2).
Proof. now rewrite generated_ids_app, length_app. Qed.

Lemma callback_ids_are_markers tv msg index array g :
  List.length (generated_ids (fst (flatMap_callback tv msg index array g))) =
  count_markers Progress (fst (flatMap_callback tv msg index array g))
  + count_markers Router (fst (flatMap_callback tv msg index array g))
  + count_markers SelectedDocuments
      (fst (flatMap_callback tv msg index array g)).
Proof.
  destruct (callback_cases tv msg index array g)
    as [[_ E] | [[_ [_ E]] | [[_ [_ E]] | [_ E]]]]; rewrite E;
    try reflexivity.
  unfold terminal_output. cbn [fst].
  destruct (truthy (tv_router tv));
    destruct (truthy (opt_length (tv_documents tv))); reflexivity.
Qed.

Lemma flatMap_from_ids_are_markers tv array rest :
  forall index g,
    List.length
      (generated_ids
         (fst (flatMap_from (flatMap_callback tv) array index rest g))) =
    count_markers Progress
      (fst (flatMap_from (flatMap_callback tv) array index rest g))
    + count_markers Router
        (fst (flatMap_from (flatMap_callback tv) array index rest g))
    + count_markers SelectedDocuments
        (fst (flatMap_from (flatMap_callback tv) array index rest g)).
Proof.
  induction rest as [|msg rest IH]; intros index g.
  - reflexivity.
  - rewrite flatMap_from_cons. cbn [fst].
    rewrite generated_ids_length_app, !count_markers_app.
    rewrite callback_ids_are_markers, IH. lia.
Qed.

(** X16. The identifiers generated for a timeline are consecutive
    draws of the generator, starting at its state before the call:
    they are pairwise distinct and none was drawn earlier. One is
    drawn per human entry and, per [ai] entry that is last in the raw
    list or directly followed by a human entry, one when [router] is
    truthy and one when [documents?.length] is truthy; the generator
    ends advanced by that many draws. Entries passed through draw
    none. *)
Theorem generated_ids_are_consecutive_draws :
  forall tv g,
    generated_ids (fst (reconstruct tv g)) =
    seq g (count_type "human" (tv_messages tv)
           + ((if truthy (tv_router tv) then 1 else 0)
              + (if truthy (opt_length (tv_documents tv)) then 1 else 0))
             * terminal_count (tv_messages tv))
    /\ snd (reconstruct tv g) =
       g + (count_type "human" (tv_messages tv)
            + ((if truthy (tv_router tv) then 1 else 0)
               + (if truthy (opt_length (tv_documents tv)) then 1 else 0))
              * terminal_count (tv_messages tv)).
Proof.
  intros tv g.
  pose proof (flatMap_from_ids_are_markers tv (tv_messages tv)
                (tv_messages tv) 0 g) as Hn.
  destruct (flatMap_from_generated_ids tv (tv_messages tv)
              (tv_messages tv) 0 g) as [n [E I]].
  fold (flatMap (flatMap_callback tv) (tv_messages tv)) in Hn, E, I.
  fold (reconstruct tv) in Hn, E, I.
  rewrite I, length_seq, !built_marker_counts in Hn.
  cbn [markers_per_human markers_per_terminal] in Hn.
  assert (Hcount : n = count_type "human" (tv_messages tv)
                       + ((if truthy (tv_router tv) then 1 else 0)
                          + (if truthy (opt_length (tv_documents tv))
                             then 1 else 0))
                         * terminal_count (tv_messages tv)).
  { destruct (truthy (tv_router tv));
      destruct (truthy (opt_length (tv_documents tv))); lia. }
  rewrite <- Hcount. split; [exact I | exact E].
Qed.

(** ** Cutting a conversation in front of a human entry *)

Lemma callback_same_lookahead tv msg index array index' array' g :
  isLastAiMessage index array = isLastAiMessage index' array' ->
  flatMap_callback tv msg index array g =
  flatMap_callback tv msg index' array' g.
Proof.
  unfold flatMap_callback. now intros ->.
Qed.

Lemma flatMap_from_lookahead tv rest later :
  cut_point later = true ->
  forall pre pre' g,
    flatMap_from (flatMap_callback tv) (pre ++ rest ++ later)
      (List.length pre) rest g =
    flatMap_from (flatMap_callback tv) (pre' ++ rest)
      (List.length pre') rest g.
Proof.
  intros Hcut. induction rest as [|msg rest IH]; intros pre pre' g.
  - reflexivity.
  - rewrite !flatMap_from_cons.
    assert (Hcb : flatMap_callback tv msg (List.length pre)
                    (pre ++ (msg :: rest) ++ later) g =
                  flatMap_callback tv msg (List.length pre')
                    (pre' ++ msg :: rest) g).
    { apply callback_same_lookahead. cbn [app].
      rewrite !isLastAiMessage_middle.
      destruct rest; [exact Hcut | reflexivity]. }
    rewrite Hcb.
    specialize (IH (pre ++ [msg]) (pre' ++ [msg])
                  (snd (flatMap_callback tv msg (List.length pre')
                          (pre' ++ msg :: rest) g))).
    rewrite <- !app_assoc in IH. cbn [app] in IH.
    rewrite !length_app in IH. cbn [List.length] in IH.
    replace (List.length pre + 1) with (S (List.length pre)) in IH by lia.
    replace (List.length pre' + 1) with (S (List.length pre')) in IH by lia.
    cbn [app]. now rewrite IH.
Qed.

Lemma flatMap_from_app cb array (x y : list Obj) :
  forall index g,
    flatMap_from cb array index (x ++ y) g =
    (fst (flatMap_from cb array index x g)
     ++ fst (flatMap_from cb array (index + List.length x) y
               (snd (flatMap_from cb array index x g))),
     snd (flatMap_from cb array (index + List.length x) y
            (snd (flatMap_from cb array index x g)))).
Proof.
  induction x as [|msg x IH]; intros index g.
  - cbn [app List.length flatMap_from gret fst snd].
    rewrite Nat.add_0_r. now destruct (flatMap_from cb array index y g).
  - cbn [app]. rewrite !flatMap_from_cons, IH. cbn [fst snd List.length].
    rewrite app_assoc. now replace (S index + List.length x)
                         with (index + S (List.length x)) by lia.
Qed.

(** X17. A raw list cut in front of a human entry is reconstructed part by
    part: the timeline of the whole is the timeline of the earlier part
    followed by the timeline of the later part, built with the
    identifiers that follow. *)
Theorem timeline_of_exchanges_concatenates :
  forall tv earlier later g,
    cut_point later = true ->
    reconstruct (with_messages tv (earlier ++ later)) g =
    (fst (reconstruct (with_messages tv earlier) g)
     ++ fst (reconstruct (with_messages tv later)
               (snd (reconstruct (with_messages tv earlier) g))),
     snd (reconstruct (with_messages tv later)
            (snd (reconstruct (with_messages tv earlier) g)))).
Proof.
  intros tv earlier later g Hcut.
  unfold reconstruct, flatMap. cbn [tv_messages with_messages].
  change (flatMap_callback (with_messages tv (earlier ++ later)))
    with (flatMap_callback tv).
  change (flatMap_callback (with_messages tv earlier))
    with (flatMap_callback tv).
  change (flatMap_callback (with_messages tv later))
    with (flatMap_callback tv).
  rewrite flatMap_from_app. cbn [Nat.add].
  pose proof (flatMap_from_lookahead tv earlier later Hcut [] [] g) as H1.
  cbn [app List.length] in H1. rewrite H1.
  pose proof (flatMap_from_lookahead tv later [] eq_refl earlier []
                (snd (flatMap_from (flatMap_callback tv) earlier 0 earlier g)))
    as H2.
  rewrite app_nil_r in H2. cbn [app List.length] in H2. now rewrite H2.
Qed.

Lemma timeline_of_exchanges_concatenates_example :
  reconstruct (with_messages scenario_snapshot two_exchanges) 0 =
  (fst (reconstruct
          (with_messages scenario_snapshot
             [raw "human" "Q1"; raw "ai" "draft"; raw "ai" "A1"]) 0)
   ++ fst (reconstruct
             (with_messages scenario_snapshot
                [raw "human" "Q2"; raw "ai" "A2"])
             (snd (reconstruct
                     (with_messages scenario_snapshot
                        [raw "human" "Q1"; raw "ai" "draft"; raw "ai" "A1"])
                     0))),
   snd (reconstruct
          (with_messages scenario_snapshot
             [raw "human" "Q2"; raw "ai" "A2"])
          (snd (reconstruct
                  (with_messages scenario_snapshot
                     [raw "human" "Q1"; raw "ai" "draft"; raw "ai" "A1"])
                  0)))).
Proof.
  apply (timeline_of_exchanges_concatenates scenario_snapshot
           [raw "human" "Q1"; raw "ai" "draft"; raw "ai" "A1"]
           [raw "human" "Q2"; raw "ai" "A2"] 0).
  reflexivity.
Defined.

(** ** nodeToStep *)

(** X7. A step other than 0 names its node: two node names with the same
    non-zero step are the same name. Every step lies between 0 and 3,
    and a name that is not one of the four nodes shares step 0 with
    [analyze_and_route_query]. *)
Theorem nodeToStep_later_steps_name_their_node :
  (forall a b,
      nodeToStep a = nodeToStep b -> nodeToStep a <> 0%Z -> a = b)
  /\ (forall node, (0 <= nodeToStep node <= 3)%Z)
  /\ (forall node,
         node <> "create_research_plan" ->
         node <> "conduct_research" ->
         node <> "respond" ->
         nodeToStep node = nodeToStep "analyze_and_route_query").
Proof.
  split; [|split].
  - intros a b. unfold nodeToStep.
    repeat match goal with
           | |- context [String.eqb ?x ?y] =>
               destruct (String.eqb_spec x y)
           end; intros; subst; try congruence; try lia.
  - intros node. pose proof (nodeToStep_range node) as H.
    unfold done_step in H. lia.
  - intros node H1 H2 H3. unfold nodeToStep.
    apply String.eqb_neq in H1, H2, H3. rewrite H1, H2, H3.
    now destruct (String.eqb node "analyze_and_route_query").
Qed.

Lemma nodeToStep_later_steps_name_their_node_example :
  "conduct_research" = "conduct_research"
  /\ nodeToStep "retrieve" = nodeToStep "analyze_and_route_query".
Proof.
  split.
  - apply (proj1 nodeToStep_later_steps_name_their_node
             "conduct_research" "conduct_research");
      [reflexivity | discriminate].
  - apply (proj2 (proj2 nodeToStep_later_steps_name_their_node) "retrieve");
      discriminate.
Defined.

(** ** sendChat *)

(** X8. [sendChat] makes one request to the chat endpoint with the given
    messages and model and touches nothing else. It resolves with a
    value exactly when the response is ok and its body parses to that
    value; a response that is not ok is an error whatever its body. *)
Theorem sendChat_resolves_on_ok_json_only :
  forall net msgs model s,
    snd (sendChat net msgs model s) = emit (EvFetch chat_url msgs model) s
    /\ (forall v, fst (sendChat net msgs model s) = Normal v
                  <-> net = FetchResponds true (Some v))
    /\ (forall json, net = FetchResponds false json ->
                     fst (sendChat net msgs model s) = Throw ChatApiError).
Proof.
  intros net msgs model s.
  destruct net as [|[] [v'|]]; cbn; (split; [reflexivity|]); split;
    try (intros v; split; intros H; congruence);
    try (intros json H; congruence).
Qed.

Lemma sendChat_resolves_on_ok_json_only_example :
  fst (sendChat (FetchResponds false (Some (JObj [("answer", JStr "hi")])))
         [] gemini_2_5_pro initial_state) = Throw ChatApiError.
Proof.
  apply (proj2 (proj2 (sendChat_resolves_on_ok_json_only
                         (FetchResponds false
                            (Some (JObj [("answer", JStr "hi")])))
                         [] gemini_2_5_pro initial_state))
           (Some (JObj [("answer", JStr "hi")]))).
  reflexivity.
Defined.

(** ** streamMessage, whatever the network answers *)

Lemma network_outcomes net :
  chat_call_fails net \/ exists response, net = FetchResponds true (Some response).
Proof.
  destruct net as [|[] [v|]]; cbn; eauto.
Qed.



Lemma streamMessage_paths userId net tid params s :
  let r := streamMessage userId net tid params s in
  (messages (snd r) = messages s /\ uuid_state (snd r) = uuid_state s)
  \/ (exists answer response,
         messages (snd r) =
         messages s ++ [answer_message answer response (uuid_state s)]
         /\ uuid_state (snd r) = S (uuid_state s)).
Proof.
  cbv zeta.
  destruct (no_user userId) eqn:Hu.
  - left. now rewrite (streamMessage_no_user _ _ _ _ _ Hu).
  - destruct (network_outcomes net) as [Hfail | [response ->]].
    + left. now rewrite (streamMessage_failure _ _ _ _ _ Hu Hfail).
    + destruct (prop "answer" response) as [answer|] eqn:Hprop.
      * right. exists answer, response.
        now rewrite (streamMessage_success _ _ _ _ _ _ Hu Hprop).
      * left. now rewrite (streamMessage_nullish_response _ _ _ _ _ Hu Hprop).
Qed.

(** X10. [streamMessage] never removes, reorders or rewrites an entry of the
    timeline: whoever calls it and whatever the network answers, the
    timeline after the call is the timeline before it followed by at
    most one entry, and that entry is an assistant message, not a
    marker. *)
Theorem streamMessage_only_appends :
  forall userId net tid params s,
    exists tail,
      messages (snd (streamMessage userId net tid params s)) =
      messages s ++ tail
      /\ List.length tail <= 1
      /\ Forall (fun m => is_marker m = false /\ is_human m = false) tail.
Proof.
  intros userId net tid params s.
  destruct (streamMessage_paths userId net tid params s)
    as [[E _] | [answer [response [E _]]]].
  - exists []. rewrite E, app_nil_r. repeat split; [apply le_0_n | constructor].
  - eexists. split; [exact E|]. split; [apply le_n|].
    repeat constructor.
Qed.

(** ** Generated identifiers stay distinct *)

(** X11. The generated identifiers of the timeline are pairwise distinct and
    all drawn before the current state of the generator: this holds on
    mount, [switchSelectedThread] establishes it whatever the state
    before, and [streamMessage] keeps it. *)
Theorem generated_ids_stay_distinct :
  ids_drawn_before (uuid_state initial_state) (messages initial_state)
  /\ (forall thread s,
         ids_drawn_before
           (uuid_state (snd (switchSelectedThread thread s)))
           (messages (snd (switchSelectedThread thread s))))
  /\ (forall userId net tid params s,
         ids_drawn_before (uuid_state s) (messages s) ->
         ids_drawn_before
           (uuid_state (snd (streamMessage userId net tid params s)))
           (messages (snd (streamMessage userId net tid params s)))).
Proof.
  split; [|split].
  - split; constructor.
  - intros thread s. apply switchSelectedThread_ids.
  - intros userId net tid params s Hids.
    destruct (streamMessage_paths userId net tid params s)
      as [[E G] | [answer [response [E G]]]]; rewrite E, G.
    + exact Hids.
    + replace (S (uuid_state s)) with (uuid_state s + 1) by lia.
      apply ids_drawn_before_app; [exact Hids | reflexivity].
Qed.

Lemma generated_ids_stay_distinct_example :
  ids_drawn_before
    (uuid_state
       (snd (streamMessage (Some "user-1")
               (FetchResponds true (Some (JStr "hello")))
               "t1" asking_input asking_state)))
    (messages
       (snd (streamMessage (Some "user-1")
               (FetchResponds true (Some (JStr "hello")))
               "t1" asking_input asking_state))).
Proof.
  apply (proj2 (proj2 generated_ids_stay_distinct)).
  split; constructor.
Defined.

(** ** Submitting and switching *)

(** X12. Switching to a thread after a submission shows that thread alone:
    the answer appended by [streamMessage] does not survive the switch,
    and the timeline is the one a switch without the submission would
    show, up to generated identifiers. Submitting successfully after a
    switch shows the reconstructed thread followed by the one answer. *)
Theorem switch_discards_submission :
  forall userId net tid params thread s,
    map erase_id
      (messages
         (snd (switchSelectedThread thread
                 (snd (streamMessage userId net tid params s))))) =
    map erase_id (messages (snd (switchSelectedThread thread s)))
    /\ (forall response answer,
           no_user userId = false ->
           prop "answer" response = Some answer ->
           messages
             (snd (streamMessage userId (FetchResponds true (Some response))
                     tid params (snd (switchSelectedThread thread s)))) =
           messages (snd (switchSelectedThread thread s))
           ++ [answer_message answer response
                 (uuid_state (snd (switchSelectedThread thread s)))]).
Proof.
  intros userId net tid params thread s. split.
  - rewrite !switchSelectedThread_eq. cbn [snd messages].
    destruct (values thread) as [tv|]; [|reflexivity].
    apply flatMap_from_erase_id.
  - intros response answer Hu Hprop.
    now rewrite (streamMessage_success _ _ _ _ _ _ Hu Hprop).
Qed.

Lemma switch_discards_submission_example :
  messages
    (snd (streamMessage (Some "user-1")
            (FetchResponds true (Some (JObj [("answer", JStr "hello")])))
            "t1" asking_input
            (snd (switchSelectedThread
                    {| thread_id := "t1"; values := Some scenario_snapshot |}
                    initial_state)))) =
  messages
    (snd (switchSelectedThread
            {| thread_id := "t1"; values := Some scenario_snapshot |}
            initial_state))
  ++ [answer_message (JStr "hello") (JObj [("answer", JStr "hello")])
        (uuid_state
           (snd (switchSelectedThread
                   {| thread_id := "t1"; values := Some scenario_snapshot |}
                   initial_state)))].
Proof.
  apply (proj2 (switch_discards_submission (Some "user-1") FetchRejects
                  "t1" asking_input
                  {| thread_id := "t1"; values := Some scenario_snapshot |}
                  initial_state)).
  - reflexivity.
  - reflexivity.
Defined.
